(** * Nexus Chat (site-ollama): the session message-synchronisation core

    A shallow embedding of [src/App.tsx] and of the types it imports
    ([Message], [ChatSession], [UserProfile]).  The React component is modelled
    as a state machine: its [useState] cells are the fields of [App], the
    remote collaborators (the Supabase client, the generation service, the
    console) are visible through the [Effect]s the handlers emit, and the
    results they give back are carried by the events that resume the
    handlers. *)

From Stdlib Require Import List String ZArith Bool Arith Lia.
Import ListNotations.
Local Open Scope string_scope.
Local Open Scope list_scope.

(** ** Data model (types.ts) *)

Inductive Role : Type := user | model.

Module Message.
Record t : Type := mk {
    id : string;
    role : Role;
    text : string;
    timestamp : Z;
    image : option string;
    isStreaming : option bool;
    user_name : option string;
    user_avatar : option string;
    session_id : option string
  }.
End Message.

Module ChatSession.
Record t : Type := mk {
    id : string;
    name : string;
    avatar : string;
    lastMessage : option string;
    personality : string;
    messages : list Message.t
  }.

  (** The object spread [{ ...s, messages: ms }]. *)
Definition with_messages (s : t) (ms : list Message.t) : t :=
    mk (id s) (name s) (avatar s) (lastMessage s) (personality s) ms.
End ChatSession.

Module UserProfile.
Record t : Type := mk { name : string; avatar : string }.
End UserProfile.

Abbreviation Message := Message.t.
Abbreviation ChatSession := ChatSession.t.
Abbreviation UserProfile := UserProfile.t.

(** ** Array helpers of the JavaScript runtime used by App.tsx *)

(** [arr.find(p)]: the first element satisfying [p], or undefined. *)
Definition js_find {A : Type} (p : A -> bool) (arr : list A) : option A :=
  List.find p arr.

(** Truthiness of the result of [find] on an array of objects: an object is
    truthy, undefined is falsy. *)
Definition truthy {A : Type} (o : option A) : bool :=
  match o with Some _ => true | None => false end.

(** [arr.slice(start)] with the relative index resolved as ECMAScript does:
    a negative [start] counts from the end and is clamped at 0, a positive one
    is clamped at the length. *)
Definition js_slice {A : Type} (start : Z) (arr : list A) : list A :=
  let len := Z.of_nat (List.length arr) in
  let k := if (start <? 0)%Z then Z.max (len + start) 0 else Z.min start len in
  skipn (Z.to_nat k) arr.

(** [a || b] on strings: the empty string is the falsy one. *)
Definition str_or (a b : string) : string :=
  if String.eqb a "" then b else a.

(** ** The live-feed handler (App.tsx, lines 66-76) *)

(** Which branch the handler takes for one room.  The source returns only the
    session; the tag names the branch: [DuplicateIgnored] is [return s],
    [Inserted] is the spread with the message appended. *)
Inductive MergeOutcome : Type := Inserted | DuplicateIgnored.

Definition same_id (newMessage : Message) (m : Message) : bool :=
  String.eqb (Message.id m) (Message.id newMessage).

Definition append_or_merge (msgs : list Message) (newMessage : Message)
  : MergeOutcome * list Message :=
  if truthy (js_find (same_id newMessage) msgs)
  then (DuplicateIgnored, msgs)
  else (Inserted, msgs ++ [newMessage]).

(** The body of the [prev.map(s => ...)] callback of the handler. *)
Definition on_insert_session (activeSessionId : string) (newMessage : Message)
  (s : ChatSession) : ChatSession :=
  if String.eqb (ChatSession.id s) activeSessionId then
    match append_or_merge (ChatSession.messages s) newMessage with
    | (DuplicateIgnored, _) => s
    | (Inserted, ms) => ChatSession.with_messages s ms
    end
  else s.

(** The state updater passed to [setSessions] by the handler. *)
Definition on_insert (activeSessionId : string) (newMessage : Message)
  (prev : list ChatSession) : list ChatSession :=
  map (on_insert_session activeSessionId newMessage) prev.

(** ** Applying a fetched history (App.tsx, lines 49-53) *)

Definition load_initial_session (activeSessionId : string) (data : list Message)
  (s : ChatSession) : ChatSession :=
  if String.eqb (ChatSession.id s) activeSessionId
  then ChatSession.with_messages s data
  else s.

Definition load_initial (activeSessionId : string) (data : list Message)
  (prev : list ChatSession) : list ChatSession :=
  map (load_initial_session activeSessionId data) prev.

(** The message list of room [r] as the component holds it: the list of the
    first session whose id is [r] (what [sessions.find] selects). *)
Definition room_messages (r : string) (ss : list ChatSession)
  : option (list Message) :=
  option_map ChatSession.messages
    (js_find (fun s => String.eqb (ChatSession.id s) r) ss).

(** Number of stored copies of the message id [i] in a list. *)
Definition copies (i : string) (msgs : list Message) : nat :=
  List.length (filter (fun m => String.eqb (Message.id m) i) msgs).

(** ** Collaborators, seen through the calls the component makes *)

Inductive Effect : Type :=
  (** [supabase.from('messages').select('*').eq('session_id', id)
      .order('timestamp', { ascending: true }).limit(100)] *)
| DbSelect (session_id : string)
  (** [supabase.from('messages').insert([row])] *)
| DbInsert (row : Message)
  (** [supabase.channel(`room-${id}`).on(..., handler).subscribe()], giving
      the channel object [h] *)
| ChannelSubscribe (h : nat) (activeSessionId : string)
  (** [supabase.removeChannel(h)] *)
| RemoveChannel (h : nat)
  (** [generateResponse(text, history, personality, image)] *)
| GenerateResponse (text : string) (history : list Message)
    (personality : string) (image : option string)
  (** [console.error(label, ...)] *)
| ConsoleError (label : string).

(** What [await generateResponse(...)] does: the promise rejects, or resolves
    to a text. *)
Inductive GenResult : Type :=
| GenThrows
| GenReturns (responseText : string).

(** Everything [handleSendMessage] obtains from outside the component during
    one call: the two [Math.random()] ids, the two [Date.now()] readings, the
    [error] field of the first insert's result, and the generation result. *)
Record SendEnv : Type := mkSendEnv {
  messageId : string;
  now : Z;
  insert_error : bool;
  generated : GenResult;
  botId : string;
  botNow : Z
}.

(** [sessions.find(s => s.id === activeSessionId) || sessions[0]]; [None] is
    undefined (an empty session list). *)
Definition activeSession (sessions : list ChatSession)
  (activeSessionId : string) : option ChatSession :=
  match js_find (fun s => String.eqb (ChatSession.id s) activeSessionId)
          sessions with
  | Some s => Some s
  | None => nth_error sessions 0
  end.

(** ** handleSendMessage (App.tsx, lines 84-129)

    The handler reads only values captured by its closure at render time
    ([userProfile], [activeSessionId], [activeSession]) and never calls a state
    setter, so one call is a function from that snapshot and the outside
    results to the calls it makes, in order. *)

Definition newUserMessage (p : UserProfile) (activeSessionId : string)
  (text : string) (image : option string) (env : SendEnv) : Message :=
  Message.mk (messageId env) user text (now env) image None
    (Some (UserProfile.name p)) (Some (UserProfile.avatar p))
    (Some activeSessionId).

Definition botMessage (activeSessionId : string) (responseText : string)
  (env : SendEnv) : Message :=
  Message.mk (botId env) model (str_or responseText "...") (botNow env)
    None None None None (Some activeSessionId).

Definition handleSendMessage (userProfile : option UserProfile)
  (activeSessionId : string) (active : option ChatSession)
  (text : string) (image : option string) (env : SendEnv) : list Effect :=
  match userProfile with
  | None => []
  | Some p =>
      DbInsert (newUserMessage p activeSessionId text image env) ::
      if insert_error env
      then [ConsoleError "Erro ao enviar para Supabase:"]
      else
        match active with
        | None =>
            (* [activeSession.messages] on undefined throws inside the try *)
            [ConsoleError "Erro Gemini:"]
        | Some a =>
            GenerateResponse text (js_slice (-5) (ChatSession.messages a))
              (ChatSession.personality a) image ::
            match generated env with
            | GenThrows => [ConsoleError "Erro Gemini:"]
            | GenReturns responseText =>
                [DbInsert (botMessage activeSessionId responseText env)]
            end
        end
  end.

(** ** The component as a state machine *)

Definition INITIAL_SESSIONS : list ChatSession :=
  [ ChatSession.mk "public-room-1" "Lounge da Nova"
      "https://picsum.photos/seed/nova/200" None
      "Você é Nova, a anfitriã desta sala pública. Você incentiva a conversa entre as pessoas. Responda de forma breve e em português."
      [];
    ChatSession.mk "creative-space" "Espaço Criativo"
      "https://picsum.photos/seed/echo/200" None
      "Você é Eco, uma IA que inspira criatividade. Responda em português."
      [] ].

(** The [useState] cells the core reads, the channel object held by the
    cleanup closure of the current effect, and the client-side view of the
    collaborator: the channels currently open (each with the
    [activeSessionId] its handler captured), the next channel object, and the
    rooms captured by the [fetchMessages] calls still awaiting their result. *)
Record App : Type := mkApp {
  sessions : list ChatSession;
  activeSessionId : string;
  userProfile : option UserProfile;
  channel : nat;
  open_channels : list (nat * string);
  next_channel : nat;
  in_flight : list string
}.

Definition setSessions (f : list ChatSession -> list ChatSession) (a : App)
  : App :=
  mkApp (f (sessions a)) (activeSessionId a) (userProfile a) (channel a)
    (open_channels a) (next_channel a) (in_flight a).

Definition setActiveSessionId (id : string) (a : App) : App :=
  mkApp (sessions a) id (userProfile a) (channel a)
    (open_channels a) (next_channel a) (in_flight a).

Definition setUserProfile (p : UserProfile) (a : App) : App :=
  mkApp (sessions a) (activeSessionId a) (Some p) (channel a)
    (open_channels a) (next_channel a) (in_flight a).

(** The body of the effect (lines 40-77) for the current [activeSessionId]:
    start [fetchMessages], then open and subscribe the room's channel. *)
Definition run_effect (a : App) : App * list Effect :=
  let h := next_channel a in
  (mkApp (sessions a) (activeSessionId a) (userProfile a) h
     (open_channels a ++ [(h, activeSessionId a)]) (S h)
     (in_flight a ++ [activeSessionId a]),
   [DbSelect (activeSessionId a); ChannelSubscribe h (activeSessionId a)]).

(** The cleanup returned by the effect (lines 79-81). *)
Definition cleanup_effect (a : App) : App * list Effect :=
  (mkApp (sessions a) (activeSessionId a) (userProfile a) (channel a)
     (filter (fun c => negb (Nat.eqb (fst c) (channel a))) (open_channels a))
     (next_channel a) (in_flight a),
   [RemoveChannel (channel a)]).

(** First render and first run of the effect; [saved] is what the lazy
    initialiser of [userProfile] reads from local storage. *)
Definition mount (saved : option UserProfile) : App * list Effect :=
  let first_id :=
    match nth_error INITIAL_SESSIONS 0 with
    | Some s => ChatSession.id s
    | None => ""
    end in
  run_effect (mkApp INITIAL_SESSIONS first_id saved 0 [] 0 []).

Fixpoint remove_first (r : string) (l : list string) : list string :=
  match l with
  | [] => []
  | x :: l' => if String.eqb x r then l' else x :: remove_first r l'
  end.

Definition channel_room (h : nat) (cs : list (nat * string)) : option string :=
  option_map snd (js_find (fun c => Nat.eqb (fst c) h) cs).

Inductive Event : Type :=
  (** the sidebar's [onSelect], which is [setActiveSessionId] *)
| Select (id : string)
  (** the [await] of a [fetchMessages] call that captured [room] resumes;
      [None] is an error or null data *)
| HistoryArrives (room : string) (data : option (list Message))
  (** the collaborator delivers an INSERT payload on channel [h] *)
| FeedInsert (h : nat) (newMessage : Message)
  (** the chat window's [onSendMessage] *)
| Send (text : string) (image : option string) (env : SendEnv)
  (** [handleJoin] with the trimmed nickname *)
| Join (trimmed : string).

Definition step (a : App) (e : Event) : App * list Effect :=
  match e with
  | Select id =>
      if String.eqb id (activeSessionId a) then (a, [])
      else
        let (a1, out1) := cleanup_effect a in
        let (a2, out2) := run_effect (setActiveSessionId id a1) in
        (a2, out1 ++ out2)
  | HistoryArrives room data =>
      if existsb (String.eqb room) (in_flight a) then
        let a1 :=
          mkApp (sessions a) (activeSessionId a) (userProfile a) (channel a)
            (open_channels a) (next_channel a)
            (remove_first room (in_flight a)) in
        match data with
        | Some d => (setSessions (load_initial room d) a1, [])
        | None => (a1, [])
        end
      else (a, [])
  | FeedInsert h newMessage =>
      match channel_room h (open_channels a) with
      | Some room => (setSessions (on_insert room newMessage) a, [])
      | None => (a, [])
      end
  | Send text image env =>
      (a, handleSendMessage (userProfile a) (activeSessionId a)
            (activeSession (sessions a) (activeSessionId a)) text image env)
  | Join trimmed =>
      if String.eqb trimmed "" then (a, [])
      else
        (setUserProfile
           (UserProfile.mk trimmed
              ("https://picsum.photos/seed/" ++ trimmed ++ "/200")%string) a,
         [])
  end.

(** Running a sequence of events, collecting the calls made. *)
Fixpoint run (a : App) (evs : list Event) : App * list Effect :=
  match evs with
  | [] => (a, [])
  | e :: evs' =>
      let (a1, out1) := step a e in
      let (a2, out2) := run a1 evs' in
      (a2, out1 ++ out2)
  end.

(** From the first render on. *)
Definition run_app (saved : option UserProfile) (evs : list Event)
  : App * list Effect :=
  let (a0, out0) := mount saved in
  let (a1, out1) := run a0 evs in
  (a1, out0 ++ out1).

(** The sequence handed to the chat window: [activeSession.messages].  With
    an empty session list [activeSession] is undefined and the render throws;
    the session list never becomes empty, and [[]] stands for that case. *)
Definition snapshot (a : App) : list Message :=
  match activeSession (sessions a) (activeSessionId a) with
  | Some s => ChatSession.messages s
  | None => []
  end.

(** ** Observations on states and on call traces *)

(** Ascending by timestamp, neighbour by neighbour. *)
Fixpoint ascending (l : list Message) : bool :=
  match l with
  | [] => true
  | m :: l' =>
      match l' with
      | [] => true
      | m' :: _ =>
          (Message.timestamp m <=? Message.timestamp m')%Z && ascending l'
      end
  end.

Definition is_generate (e : Effect) : bool :=
  match e with GenerateResponse _ _ _ _ => true | _ => false end.

Definition is_agent_write (e : Effect) : bool :=
  match e with
  | DbInsert row => match Message.role row with model => true | user => false end
  | _ => false
  end.

Definition is_subscribe (h : nat) (e : Effect) : bool :=
  match e with ChannelSubscribe h' _ => Nat.eqb h' h | _ => false end.

Definition is_remove (h : nat) (e : Effect) : bool :=
  match e with RemoveChannel h' => Nat.eqb h' h | _ => false end.

Definition is_send (e : Event) : bool :=
  match e with Send _ _ _ => true | _ => false end.

Definition count {A : Type} (p : A -> bool) (l : list A) : nat :=
  List.length (filter p l).

(** The events whose handlers call [setSessions]. *)
Definition writes_sessions (e : Event) : bool :=
  match e with
  | HistoryArrives _ _ | FeedInsert _ _ => true
  | _ => false
  end.

(** Calls of the generation collaborator in a trace. *)
Definition gen_calls (out : list Effect) : nat := count is_generate out.

(** Rows with the agent's role written in a trace. *)
Definition agent_writes (out : list Effect) : nat := count is_agent_write out.

(** Open channels whose handler captured room [r]. *)
Definition subscriptions_of (r : string) (a : App) : nat :=
  count (fun c => String.eqb (snd c) r) (open_channels a).

(** Every room's list is ascending. *)
Definition all_ascending (ss : list ChatSession) : bool :=
  forallb (fun s => ascending (ChatSession.messages s)) ss.

(** An event that respects timestamp order in state [a]: an arriving history
    is ascending, and a delivered message is not older than any message
    already stored in the room of its channel. *)
Definition in_order (a : App) (e : Event) : bool :=
  match e with
  | HistoryArrives _ (Some d) => ascending d
  | FeedInsert h newMessage =>
      match channel_room h (open_channels a) with
      | Some room =>
          forallb
            (fun s =>
               if String.eqb (ChatSession.id s) room
               then forallb
                      (fun m => (Message.timestamp m <=?
                                 Message.timestamp newMessage)%Z)
                      (ChatSession.messages s)
               else true)
            (sessions a)
      | None => true
      end
  | _ => true
  end.

Fixpoint run_in_order (a : App) (evs : list Event) : bool :=
  match evs with
  | [] => true
  | e :: evs' => in_order a e && run_in_order (fst (step a e)) evs'
  end.

(** The bookkeeping of channels in state [a] after the calls [out]: the one
    open channel is the current effect's, for the active room; channel
    objects are handed out in sequence; every channel object up to the
    current one was subscribed once, and every one before it removed once. *)
Definition channels_accounted (a : App) (out : list Effect) : Prop :=
  next_channel a = S (channel a) /\
  open_channels a = [(channel a, activeSessionId a)] /\
  forall h,
    count (is_subscribe h) out = (if Nat.leb h (channel a) then 1 else 0) /\
    count (is_remove h) out = (if Nat.ltb h (channel a) then 1 else 0).

(** ** Sample values *)

Definition sample_message (i : string) (t : Z) : Message :=
  Message.mk i user "hi" t None None (Some "ana")
    (Some "https://picsum.photos/seed/ana/200") (Some "public-room-1").

Definition msgA : Message := sample_message "a" 1.
Definition msgB : Message := sample_message "b" 2.
Definition msgC : Message := sample_message "c" 3.
Definition msgLate : Message := sample_message "late" 10.
Definition msgEarly : Message := sample_message "early" 5.

Definition ana : UserProfile :=
  UserProfile.mk "ana" "https://picsum.photos/seed/ana/200".

Definition lounge : ChatSession :=
  ChatSession.mk "public-room-1" "Lounge da Nova"
    "https://picsum.photos/seed/nova/200" None
    "Você é Nova, a anfitriã desta sala pública. Você incentiva a conversa entre as pessoas. Responda de forma breve e em português."
    [msgA; msgB].

Definition env_ok (g : GenResult) : SendEnv :=
  mkSendEnv "m1" 100 false g "bot1" 101.

Definition env_write_fails : SendEnv :=
  mkSendEnv "m1" 100 true (GenReturns "hello!") "bot1" 101.

(** A client that has joined as [ana] and whose first room holds the history
    [msgA; msgB]. *)
Definition joined_app : App :=
  fst (run_app (Some ana)
         [HistoryArrives "public-room-1" (Some [msgA; msgB])]).

(** ** Further observations *)

(** What of a session no handler replaces: everything but its messages. *)
Definition catalog_entry (s : ChatSession)
  : string * string * string * option string * string :=
  (ChatSession.id s, ChatSession.name s, ChatSession.avatar s,
   ChatSession.lastMessage s, ChatSession.personality s).

Definition catalog (ss : list ChatSession)
  : list (string * string * string * option string * string) :=
  map catalog_entry ss.

(** No two messages of the list share an id. *)
Fixpoint distinct_ids (msgs : list Message) : bool :=
  match msgs with
  | [] => true
  | m :: l => negb (existsb (same_id m) l) && distinct_ids l
  end.

Definition all_distinct (ss : list ChatSession) : bool :=
  forallb (fun s => distinct_ids (ChatSession.messages s)) ss.

(** The events that put a fetched history in place. *)
Definition loads_history (e : Event) : bool :=
  match e with HistoryArrives _ (Some _) => true | _ => false end.

Definition history_distinct (e : Event) : bool :=
  match e with
  | HistoryArrives _ (Some d) => distinct_ids d
  | _ => true
  end.

Definition is_delivery (e : Event) : bool :=
  match e with FeedInsert _ _ => true | _ => false end.

(** A join that sets a profile. *)
Definition sets_profile (e : Event) : bool :=
  match e with Join trimmed => negb (String.eqb trimmed "") | _ => false end.

Definition is_insert (e : Effect) : bool :=
  match e with DbInsert _ => true | _ => false end.

Definition is_user_write (e : Effect) : bool :=
  match e with
  | DbInsert row => match Message.role row with user => true | model => false end
  | _ => false
  end.

Definition is_select (r : string) (e : Effect) : bool :=
  match e with DbSelect r' => String.eqb r' r | _ => false end.

Definition is_subscribe_to (r : string) (e : Effect) : bool :=
  match e with ChannelSubscribe _ r' => String.eqb r' r | _ => false end.

(** The rows a trace inserted, in order. *)
Definition written_rows (out : list Effect) : list Message :=
  flat_map (fun e => match e with DbInsert row => [row] | _ => [] end) out.

(** The feed delivering the given rows, in order, on channel [h]. *)
Definition echo (h : nat) (rows : list Message) : list Event :=
  map (FeedInsert h) rows.

(** A message tagged for a room other than the one it is delivered to. *)
Definition msgStray : Message :=
  Message.mk "stray" user "oi" 7 None None (Some "bia")
    (Some "https://picsum.photos/seed/bia/200") (Some "creative-space").

(** A history longer than the context window. *)
Definition long_history : list Message :=
  [sample_message "h1" 11; sample_message "h2" 12; sample_message "h3" 13;
   sample_message "h4" 14; sample_message "h5" 15; sample_message "h6" 16;
   sample_message "h7" 17].

(** A joined client whose first room holds [long_history]. *)
Definition busy_app : App :=
  fst (run_app (Some ana)
         [HistoryArrives "public-room-1" (Some long_history)]).

Definition busy_lounge : ChatSession :=
  ChatSession.with_messages lounge long_history.

(** A joined client to which the feed delivered the newer message first. *)
Definition unordered_app : App :=
  fst (run_app (Some ana) [FeedInsert 0 msgLate; FeedInsert 0 msgEarly]).

(** No room stores a message with id [i]. *)
Definition absent_everywhere (i : string) (ss : list ChatSession) : bool :=
  forallb (fun s => Nat.eqb (copies i (ChatSession.messages s)) 0) ss.

(** The events that carry a message with id [i] into the component: a
    delivery of such a message, or a fetched history that holds one. *)
Definition brings (i : string) (e : Event) : bool :=
  match e with
  | FeedInsert _ newMessage => String.eqb (Message.id newMessage) i
  | HistoryArrives _ (Some d) => negb (Nat.eqb (copies i d) 0)
  | _ => false
  end.

(** * Properties *)

(** ** Array helpers *)

Lemma truthy_find_existsb {A : Type} (p : A -> bool) (l : list A) :
  truthy (js_find p l) = existsb p l.
Proof.
  unfold js_find.
  induction l as [|x l IH]; simpl; [reflexivity|].
  destruct (p x); simpl; [reflexivity | exact IH].
Qed.

Lemma copies_app (i : string) (l1 l2 : list Message) :
  copies i (l1 ++ l2) = copies i l1 + copies i l2.
Proof. unfold copies. now rewrite filter_app, length_app. Qed.

Lemma copies_zero_existsb (M : Message) (msgs : list Message) :
  copies (Message.id M) msgs = 0 <-> existsb (same_id M) msgs = false.
Proof.
  unfold copies, same_id.
  induction msgs as [|m msgs IH]; simpl; [tauto|].
  destruct (String.eqb (Message.id m) (Message.id M)); simpl.
  - split; discriminate.
  - exact IH.
Qed.

Lemma copies_self (M : Message) : copies (Message.id M) [M] = 1.
Proof. unfold copies; simpl. now rewrite String.eqb_refl. Qed.

(** ** The merge of one delivery *)

Lemma append_or_merge_fresh (msgs : list Message) (M : Message) :
  copies (Message.id M) msgs = 0 ->
  append_or_merge msgs M = (Inserted, msgs ++ [M]).
Proof.
  intros H. unfold append_or_merge.
  rewrite truthy_find_existsb.
  apply copies_zero_existsb in H. now rewrite H.
Qed.

Lemma append_or_merge_duplicate (msgs : list Message) (M : Message) :
  copies (Message.id M) msgs <> 0 ->
  append_or_merge msgs M = (DuplicateIgnored, msgs).
Proof.
  intros H. unfold append_or_merge.
  rewrite truthy_find_existsb.
  destruct (existsb (same_id M) msgs) eqn:E; [reflexivity|].
  apply copies_zero_existsb in E. contradiction.
Qed.

Lemma on_insert_session_id (R : string) (M : Message) (s : ChatSession) :
  ChatSession.id (on_insert_session R M s) = ChatSession.id s.
Proof.
  unfold on_insert_session.
  destruct (String.eqb (ChatSession.id s) R); [|reflexivity].
  destruct (append_or_merge (ChatSession.messages s) M) as [[|] ms];
    reflexivity.
Qed.

Lemma on_insert_session_other (R : string) (M : Message) (s : ChatSession) :
  ChatSession.id s <> R -> on_insert_session R M s = s.
Proof.
  intros H. unfold on_insert_session.
  apply String.eqb_neq in H. now rewrite H.
Qed.

Lemma on_insert_session_fresh (R : string) (M : Message) (s : ChatSession) :
  ChatSession.id s = R ->
  copies (Message.id M) (ChatSession.messages s) = 0 ->
  on_insert_session R M s =
  ChatSession.with_messages s (ChatSession.messages s ++ [M]).
Proof.
  intros HR H. unfold on_insert_session.
  apply String.eqb_eq in HR. rewrite HR.
  now rewrite (append_or_merge_fresh _ _ H).
Qed.

Lemma on_insert_session_duplicate (R : string) (M : Message) (s : ChatSession) :
  copies (Message.id M) (ChatSession.messages s) <> 0 ->
  on_insert_session R M s = s.
Proof.
  intros H. unfold on_insert_session.
  destruct (String.eqb (ChatSession.id s) R); [|reflexivity].
  now rewrite (append_or_merge_duplicate _ _ H).
Qed.

Lemma on_insert_session_twice (R : string) (M : Message) (s : ChatSession) :
  on_insert_session R M (on_insert_session R M s) = on_insert_session R M s.
Proof.
  destruct (String.eqb_spec (ChatSession.id s) R) as [HR|HR].
  - destruct (Nat.eq_dec (copies (Message.id M) (ChatSession.messages s)) 0)
      as [H0|H0].
    + rewrite (on_insert_session_fresh R M s HR H0).
      apply on_insert_session_duplicate. simpl.
      rewrite copies_app, copies_self. lia.
    + rewrite (on_insert_session_duplicate R M s H0).
      now apply on_insert_session_duplicate.
  - rewrite (on_insert_session_other R M s HR).
    now apply on_insert_session_other.
Qed.

(** ** History load against live deliveries *)

Lemma load_initial_session_id (R : string) (data : list Message)
  (s : ChatSession) :
  ChatSession.id (load_initial_session R data s) = ChatSession.id s.
Proof.
  unfold load_initial_session.
  destruct (String.eqb (ChatSession.id s) R); reflexivity.
Qed.

Lemma load_initial_session_same (R : string) (data : list Message)
  (s : ChatSession) :
  ChatSession.id s = R ->
  load_initial_session R data s = ChatSession.with_messages s data.
Proof.
  intros H. unfold load_initial_session.
  apply String.eqb_eq in H. now rewrite H.
Qed.

Lemma load_initial_session_other (R : string) (data : list Message)
  (s : ChatSession) :
  ChatSession.id s <> R -> load_initial_session R data s = s.
Proof.
  intros H. unfold load_initial_session.
  apply String.eqb_neq in H. now rewrite H.
Qed.




(** ** The send path *)

Section SendPath.
Variables (a : App) (p : UserProfile) (text : string) (image : option string).
Variable env : SendEnv.
Hypothesis joined : userProfile a = Some p.

Lemma send_write_error :
    insert_error env = true ->
    step a (Send text image env) =
    (a, [DbInsert (newUserMessage p (activeSessionId a) text image env);
         ConsoleError "Erro ao enviar para Supabase:"]).
Proof.
  intros H. simpl. unfold handleSendMessage. now rewrite joined, H.
Qed.

Lemma send_generation :
    forall s : ChatSession,
      insert_error env = false ->
      activeSession (sessions a) (activeSessionId a) = Some s ->
      step a (Send text image env) =
      (a,
       DbInsert (newUserMessage p (activeSessionId a) text image env) ::
       GenerateResponse text (js_slice (-5) (ChatSession.messages s))
         (ChatSession.personality s) image ::
       match generated env with
       | GenThrows => [ConsoleError "Erro Gemini:"]
       | GenReturns responseText =>
           [DbInsert (botMessage (activeSessionId a) responseText env)]
       end).
Proof.
  intros s H Hs. simpl. unfold handleSendMessage.
  now rewrite joined, H, Hs.
Qed.
End SendPath.

Lemma send_keeps_state (a : App) (text : string) (image : option string)
  (env : SendEnv) :
  fst (step a (Send text image env)) = a.
Proof. reflexivity. Qed.

Lemma js_slice_last (k : nat) (msgs : list Message) :
  js_slice (- Z.of_nat (S k)) msgs = skipn (List.length msgs - S k) msgs.
Proof.
  unfold js_slice.
  assert (E : (- Z.of_nat (S k) <? 0)%Z = true) by (apply Z.ltb_lt; lia).
  rewrite E. f_equal. lia.
Qed.

(** C3, as the code has it.  When the generation call of a send fails, the
    calls made are the write of the user's message, the generation call and
    one console error: no agent message is written and the local state is
    unchanged.  When it returns a text, exactly one agent message is written,
    and for the empty text its content is the placeholder ["..."]. *)
Theorem generation_failure_suppresses_reply (a : App) (p : UserProfile)
  (s : ChatSession) (text : string) (image : option string) (env : SendEnv) :
  userProfile a = Some p ->
  insert_error env = false ->
  activeSession (sessions a) (activeSessionId a) = Some s ->
  let out := snd (step a (Send text image env)) in
  fst (step a (Send text image env)) = a /\
  (generated env = GenThrows ->
     out = [DbInsert (newUserMessage p (activeSessionId a) text image env);
            GenerateResponse text (js_slice (-5) (ChatSession.messages s))
              (ChatSession.personality s) image;
            ConsoleError "Erro Gemini:"] /\
     agent_writes out = 0) /\
  (forall responseText, generated env = GenReturns responseText ->
     let reply := botMessage (activeSessionId a) responseText env in
     out = [DbInsert (newUserMessage p (activeSessionId a) text image env);
            GenerateResponse text (js_slice (-5) (ChatSession.messages s))
              (ChatSession.personality s) image;
            DbInsert reply] /\
     agent_writes out = 1 /\
     Message.role reply = model /\
     (responseText = "" -> Message.text reply = "...")).
Proof.
  intros Hp He Hs out. subst out.
  rewrite (send_generation a p text image env Hp s He Hs). simpl.
  split; [reflexivity|]. split.
  - intros Hg. rewrite Hg. split; reflexivity.
  - intros r Hg. rewrite Hg. repeat split.
    intros ->. reflexivity.
Qed.

Lemma generation_failure_suppresses_reply_witness :
  agent_writes
    (snd (step joined_app (Send "hi" None (env_ok GenThrows)))) = 0.
Proof.
  destruct (generation_failure_suppresses_reply joined_app ana lounge "hi" None
              (env_ok GenThrows) eq_refl eq_refl eq_refl) as [_ [H _]].
  apply H. reflexivity.
Defined.

(** C3, as stated, fails on the empty result: the send writes an agent
    message whose text is the placeholder. *)
Lemma empty_generation_writes_placeholder :
  let out := snd (step joined_app (Send "hi" None (env_ok (GenReturns "")))) in
  agent_writes out = 1 /\
  In (DbInsert
        (Message.mk "bot1" model "..." 101 None None None None
           (Some "public-room-1"))) out.
Proof.
  split; [reflexivity|]. right; right; left; reflexivity.
Qed.

Lemma find_id_has_id (r : string) (ss : list ChatSession) (s : ChatSession) :
  js_find (fun s => String.eqb (ChatSession.id s) r) ss = Some s ->
  ChatSession.id s = r.
Proof.
  unfold js_find. intros H. apply find_some in H.
  now apply String.eqb_eq.
Qed.

Lemma find_id_present (r : string) (ss : list ChatSession) :
  In r (map ChatSession.id ss) ->
  exists s, js_find (fun s => String.eqb (ChatSession.id s) r) ss = Some s.
Proof.
  unfold js_find.
  induction ss as [|x ss IH]; simpl; [tauto|].
  intros [H|H].
  - rewrite H, String.eqb_refl. eauto.
  - destruct (String.eqb (ChatSession.id x) r); eauto.
Qed.

(** ** What the chat window is given *)

Lemma find_map_same_id (f : ChatSession -> ChatSession) (r : string)
  (ss : list ChatSession) :
  (forall s, ChatSession.id (f s) = ChatSession.id s) ->
  js_find (fun s => String.eqb (ChatSession.id s) r) (map f ss) =
  option_map f (js_find (fun s => String.eqb (ChatSession.id s) r) ss).
Proof.
  intros Hid. unfold js_find.
  induction ss as [|x ss IH]; simpl; [reflexivity|].
  rewrite Hid. destruct (String.eqb (ChatSession.id x) r); simpl; auto.
Qed.

Lemma snapshot_found (a : App) (s : ChatSession) :
  js_find (fun s => String.eqb (ChatSession.id s) (activeSessionId a))
    (sessions a) = Some s ->
  snapshot a = ChatSession.messages s.
Proof.
  intros H. unfold snapshot, activeSession. now rewrite H.
Qed.

Lemma step_sessions_frame (a : App) (e : Event) :
  writes_sessions e = false ->
  sessions (fst (step a e)) = sessions a.
Proof.
  destruct e as [id|room d|h M|text image env|trimmed]; simpl;
    try discriminate; intros _.
  - destruct (String.eqb id (activeSessionId a)); reflexivity.
  - reflexivity.
  - destruct (String.eqb trimmed ""); reflexivity.
Qed.

Lemma run_fst_cons (a : App) (e : Event) (evs : list Event) :
  fst (run a (e :: evs)) = fst (run (fst (step a e)) evs).
Proof.
  simpl. destruct (step a e) as [a1 out1]. simpl.
  destruct (run a1 evs) as [a2 out2]. reflexivity.
Qed.

Lemma run_sessions_frame (evs : list Event) :
  forall a : App,
    forallb (fun e => negb (writes_sessions e)) evs = true ->
    sessions (fst (run a evs)) = sessions a.
Proof.
  induction evs as [|e evs IH]; intros a H; [reflexivity|].
  simpl in H. apply andb_true_iff in H. destruct H as [He Hevs].
  rewrite run_fst_cons, (IH _ Hevs).
  apply step_sessions_frame. now destruct (writes_sessions e).
Qed.

(** ** Timestamp order *)

Lemma ascending_cons (m : Message) (l : list Message) :
  ascending (m :: l) = true ->
  ascending l = true.
Proof.
  destruct l as [|m' l]; simpl; [reflexivity|].
  intros H. apply andb_true_iff in H. tauto.
Qed.

Lemma ascending_snoc (l : list Message) (M : Message) :
  ascending l = true ->
  forallb (fun m => (Message.timestamp m <=? Message.timestamp M)%Z) l = true ->
  ascending (l ++ [M]) = true.
Proof.
  induction l as [|m l IH]; [reflexivity|].
  intros Hasc Hle.
  pose proof (ascending_cons _ _ Hasc) as Hl.
  simpl in Hle. apply andb_true_iff in Hle. destruct Hle as [Hm Hle].
  specialize (IH Hl Hle).
  destruct l as [|m' l].
  - simpl. now rewrite Hm.
  - simpl in Hasc. apply andb_true_iff in Hasc. destruct Hasc as [Hmm' _].
    change ((m :: m' :: l) ++ [M]) with (m :: (m' :: l) ++ [M]).
    change ((m' :: l) ++ [M]) with (m' :: l ++ [M]) in *.
    cbn [ascending]. cbn [ascending] in IH.
    now rewrite Hmm', IH.
Qed.

Lemma forallb_over_map {A B : Type} (f : A -> B) (p : B -> bool)
  (l : list A) :
  forallb p (map f l) = forallb (fun x => p (f x)) l.
Proof.
  induction l as [|x l IH]; simpl; [reflexivity | now rewrite IH].
Qed.

Lemma step_keeps_ascending (a : App) (e : Event) :
  all_ascending (sessions a) = true ->
  in_order a e = true ->
  all_ascending (sessions (fst (step a e))) = true.
Proof.
  intros Hall Hord. unfold all_ascending in *.
  destruct e as [id|room [d|]|h M|text image env|trimmed]; simpl.
  - destruct (String.eqb id (activeSessionId a)); exact Hall.
  - destruct (existsb (String.eqb room) (in_flight a)); [|exact Hall].
    simpl. unfold load_initial. rewrite forallb_over_map.
    rewrite forallb_forall in *. intros s Hs.
    unfold load_initial_session.
    destruct (String.eqb (ChatSession.id s) room); simpl; auto.
  - destruct (existsb (String.eqb room) (in_flight a)); exact Hall.
  - simpl in Hord.
    destruct (channel_room h (open_channels a)) as [room|]; [|exact Hall].
    simpl. unfold on_insert. rewrite forallb_over_map.
    rewrite forallb_forall in *. intros s Hs.
    specialize (Hall s Hs). specialize (Hord s Hs).
    unfold on_insert_session, append_or_merge.
    destruct (String.eqb (ChatSession.id s) room); [|exact Hall].
    destruct (truthy _); [exact Hall|]. simpl.
    now apply ascending_snoc.
  - exact Hall.
  - destruct (String.eqb trimmed ""); exact Hall.
Qed.

Lemma run_cons (a : App) (e : Event) (evs : list Event) :
  run a (e :: evs) =
  (fst (run (fst (step a e)) evs),
   snd (step a e) ++ snd (run (fst (step a e)) evs)).
Proof.
  simpl. destruct (step a e) as [a1 out1]. simpl.
  destruct (run a1 evs) as [a2 out2]. reflexivity.
Qed.

Lemma run_app_run (saved : option UserProfile) (evs : list Event) :
  run_app saved evs =
  (fst (run (fst (mount saved)) evs),
   snd (mount saved) ++ snd (run (fst (mount saved)) evs)).
Proof.
  unfold run_app. destruct (mount saved) as [a0 out0]. simpl.
  destruct (run a0 evs) as [a1 out1]. reflexivity.
Qed.

Lemma run_keeps_ascending (evs : list Event) :
  forall a : App,
    all_ascending (sessions a) = true ->
    run_in_order a evs = true ->
    all_ascending (sessions (fst (run a evs))) = true.
Proof.
  induction evs as [|e evs IH]; intros a Hall Hord; [exact Hall|].
  simpl in Hord. apply andb_true_iff in Hord. destruct Hord as [He Hevs].
  rewrite run_cons. simpl.
  apply IH; [now apply step_keeps_ascending | exact Hevs].
Qed.

Lemma activeSession_in (ss : list ChatSession) (r : string) (s : ChatSession) :
  activeSession ss r = Some s -> In s ss.
Proof.
  unfold activeSession, js_find.
  destruct (find _ ss) as [s'|] eqn:E.
  - intros [= <-]. now apply find_some in E.
  - destruct ss as [|x ss]; simpl; [discriminate|].
    intros [= <-]. now left.
Qed.




(** ** Late history responses *)

Lemma remove_first_keeps (r x : string) (l : list string) :
  x <> r ->
  existsb (String.eqb x) l = true ->
  existsb (String.eqb x) (remove_first r l) = true.
Proof.
  intros Hx. induction l as [|y l IH]; simpl; [auto|].
  destruct (String.eqb_spec y r) as [->|Hy].
  - apply String.eqb_neq in Hx. rewrite Hx. auto.
  - simpl. destruct (String.eqb x y); simpl; auto.
Qed.

Lemma existsb_app_left (x : string) (l1 l2 : list string) :
  existsb (String.eqb x) l1 = true ->
  existsb (String.eqb x) (l1 ++ l2) = true.
Proof. intros H. rewrite existsb_app, H. reflexivity. Qed.

Lemma room_messages_load_other (r room : string) (data : list Message)
  (ss : list ChatSession) :
  r <> room ->
  room_messages r (load_initial room data ss) = room_messages r ss.
Proof.
  intros Hr. unfold room_messages, load_initial.
  rewrite find_map_same_id by apply load_initial_session_id.
  destruct (js_find _ ss) as [s|] eqn:E; [|reflexivity].
  simpl. apply find_id_has_id in E.
  rewrite load_initial_session_other; [reflexivity | congruence].
Qed.

(** C5, as the code has it.  The continuation of [fetchMessages] makes no
    check against the room that is active when it resumes.  If the active
    room is switched from [old] to another room while the fetch for [old] is
    in flight, the history that arrives later is applied to [old], the room
    it was fetched for: the session list becomes the one before the switch
    with [old]'s list replaced by the history, the active room stays the new
    one, and the list of every other room, the new active one among them,
    is untouched. *)
Theorem late_history_applied_to_its_own_room (a : App) (next : string)
  (data : list Message) :
  next <> activeSessionId a ->
  existsb (String.eqb (activeSessionId a)) (in_flight a) = true ->
  let old := activeSessionId a in
  let switched := fst (step a (Select next)) in
  let late := fst (step switched (HistoryArrives old (Some data))) in
  activeSessionId late = next /\
  sessions late = load_initial old data (sessions a) /\
  (forall s, In s (sessions late) -> ChatSession.id s = old ->
             ChatSession.messages s = data) /\
  (forall r, r <> old ->
             room_messages r (sessions late) = room_messages r (sessions a)).
Proof.
  intros Hnext Hfl old switched late.
  assert (Hsw : switched =
                mkApp (sessions a) next (userProfile a) (next_channel a)
                  (filter (fun c => negb (Nat.eqb (fst c) (channel a)))
                     (open_channels a) ++ [(next_channel a, next)])
                  (S (next_channel a)) (in_flight a ++ [next])).
  { subst switched. simpl.
    apply String.eqb_neq in Hnext. rewrite Hnext. reflexivity. }
  assert (Hlate : late =
                  setSessions (load_initial old data)
                    (mkApp (sessions a) next (userProfile a) (next_channel a)
                       (filter (fun c => negb (Nat.eqb (fst c) (channel a)))
                          (open_channels a) ++ [(next_channel a, next)])
                       (S (next_channel a))
                       (remove_first old (in_flight a ++ [next])))).
  { subst late. rewrite Hsw. simpl.
    fold old. rewrite (existsb_app_left old _ [next] Hfl). reflexivity. }
  rewrite Hlate. simpl. repeat split.
  - intros s Hs Hid. unfold load_initial in Hs.
    apply in_map_iff in Hs. destruct Hs as [s0 [<- _]].
    rewrite load_initial_session_id in Hid.
    now rewrite (load_initial_session_same old data s0 Hid).
  - intros r Hr. now apply room_messages_load_other.
Qed.

Lemma late_history_applied_to_its_own_room_witness :
  let late :=
    fst (step (fst (step (fst (mount None)) (Select "creative-space")))
           (HistoryArrives "public-room-1" (Some [msgA]))) in
  activeSessionId late = "creative-space" /\
  room_messages "creative-space" (sessions late) = Some [].
Proof.
  destruct (late_history_applied_to_its_own_room (fst (mount None))
              "creative-space" [msgA]) as [H1 [_ [_ H2]]].
  - discriminate.
  - reflexivity.
  - split; [exact H1|].
    exact (eq_trans
             (H2 "creative-space" ltac:(discriminate)) eq_refl).
Defined.

(** C5, as stated, fails: the first room's fetch is in flight when the user
    switches to the second room; its history arrives afterwards and is stored
    in the first room, which is no longer the active one. *)
Lemma late_history_is_applied :
  let a := fst (run_app None
                  [Select "creative-space";
                   HistoryArrives "public-room-1" (Some [msgA])]) in
  activeSessionId a = "creative-space" /\
  room_messages "public-room-1"
    (sessions (fst (run_app None [Select "creative-space"]))) = Some [] /\
  room_messages "public-room-1" (sessions a) = Some [msgA].
Proof. repeat split. Qed.

(** ** Who calls the generation collaborator *)

Lemma count_app {A : Type} (p : A -> bool) (l1 l2 : list A) :
  count p (l1 ++ l2) = count p l1 + count p l2.
Proof. unfold count. now rewrite filter_app, length_app. Qed.

Lemma handleSendMessage_gen_calls (u : option UserProfile) (r : string)
  (active : option ChatSession) (text : string) (image : option string)
  (env : SendEnv) :
  gen_calls (handleSendMessage u r active text image env) <= 1.
Proof.
  unfold handleSendMessage, gen_calls, count.
  destruct u as [p|]; simpl; [|lia].
  destruct (insert_error env); simpl; [lia|].
  destruct active as [s|]; simpl; [|lia].
  destruct (generated env); simpl; lia.
Qed.

Lemma handleSendMessage_generate_args (u : option UserProfile) (r : string)
  (active : option ChatSession) (text : string) (image : option string)
  (env : SendEnv) (t : string) (ctx : list Message) (pers : string)
  (img : option string) :
  In (GenerateResponse t ctx pers img)
    (handleSendMessage u r active text image env) ->
  t = text /\ img = image.
Proof.
  unfold handleSendMessage.
  destruct u as [p|]; simpl; [|tauto].
  intros [H|H]; [discriminate|].
  destruct (insert_error env); simpl in H.
  - destruct H as [H|[]]; discriminate.
  - destruct active as [s|]; simpl in H.
    + destruct H as [H|H]; [injection H; auto|].
      destruct (generated env); simpl in H; destruct H as [H|[]];
        discriminate.
    + destruct H as [H|[]]; discriminate.
Qed.

Lemma step_effects_of_other_events (a : App) (e : Event) :
  is_send e = false ->
  forall x, In x (snd (step a e)) -> is_generate x = false.
Proof.
  intros He x.
  destruct e as [id|room [d|]|h M|text image env|trimmed]; simpl.
  - destruct (String.eqb id (activeSessionId a)); simpl; [tauto|].
    intros [<-|[<-|[<-|[]]]]; reflexivity.
  - destruct (existsb _ _); simpl; tauto.
  - destruct (existsb _ _); simpl; tauto.
  - destruct (channel_room _ _); simpl; tauto.
  - discriminate.
  - destruct (String.eqb trimmed ""); simpl; tauto.
Qed.

Lemma count_none {A : Type} (p : A -> bool) (l : list A) :
  (forall x, In x l -> p x = false) -> count p l = 0.
Proof.
  unfold count. induction l as [|x l IH]; simpl; [reflexivity|].
  intros H. rewrite (H x) by now left. apply IH. intros y Hy. apply H. now right.
Qed.

Lemma step_gen_calls (a : App) (e : Event) :
  gen_calls (snd (step a e)) <= if is_send e then 1 else 0.
Proof.
  destruct (is_send e) eqn:E.
  - destruct e; try discriminate. simpl. apply handleSendMessage_gen_calls.
  - unfold gen_calls. rewrite count_none; [lia|].
    now apply step_effects_of_other_events.
Qed.

Lemma run_gen_calls (evs : list Event) :
  forall a : App, gen_calls (snd (run a evs)) <= count is_send evs.
Proof.
  induction evs as [|e evs IH]; intros a; [simpl; unfold gen_calls, count; simpl; lia|].
  rewrite run_cons. cbn [snd]. unfold gen_calls in *.
  rewrite count_app.
  pose proof (step_gen_calls a e) as Hs. unfold gen_calls in Hs.
  specialize (IH (fst (step a e))).
  change (e :: evs) with ([e] ++ evs). rewrite (count_app is_send).
  unfold count at 3. simpl. destruct (is_send e); simpl; lia.
Qed.

Lemma run_generate_from_send (evs : list Event) :
  forall (a : App) (t : string) (ctx : list Message) (pers : string)
         (img : option string),
    In (GenerateResponse t ctx pers img) (snd (run a evs)) ->
    exists env, In (Send t img env) evs.
Proof.
  induction evs as [|e evs IH]; intros a t ctx pers img Hin; [destruct Hin|].
  rewrite run_cons in Hin. cbn [snd] in Hin.
  apply in_app_or in Hin. destruct Hin as [Hin|Hin].
  - destruct (is_send e) eqn:E.
    + destruct e as [| | |text image env|]; try discriminate.
      simpl in Hin. apply handleSendMessage_generate_args in Hin.
      destruct Hin as [-> ->]. exists env. now left.
    + apply (step_effects_of_other_events a e E) in Hin. discriminate.
  - destruct (IH _ _ _ _ _ Hin) as [env Henv]. exists env. now right.
Qed.

(** C7.  The delivery handler makes no call at all, so it never calls the
    generation collaborator.  In any run of one client, from the first
    render on, there are at most as many generation calls as sends by that
    client, every generation call carries the text and image of one of its
    own sends, and a client that sends nothing makes no generation call,
    whatever the feed delivers to it. *)
Theorem delivery_never_generates :
  (forall (a : App) (h : nat) (newMessage : Message),
      snd (step a (FeedInsert h newMessage)) = []) /\
  (forall (saved : option UserProfile) (evs : list Event),
      gen_calls (snd (run_app saved evs)) <= count is_send evs) /\
  (forall (saved : option UserProfile) (evs : list Event)
          (t : string) (ctx : list Message) (pers : string)
          (img : option string),
      In (GenerateResponse t ctx pers img) (snd (run_app saved evs)) ->
      exists env, In (Send t img env) evs) /\
  (forall (saved : option UserProfile) (evs : list Event),
      forallb (fun e => negb (is_send e)) evs = true ->
      gen_calls (snd (run_app saved evs)) = 0).
Proof.
  assert (Hle : forall saved evs,
             gen_calls (snd (run_app saved evs)) <= count is_send evs).
  { intros saved evs. rewrite run_app_run. cbn [snd].
    unfold gen_calls. rewrite (count_app is_generate).
    pose proof (run_gen_calls evs (fst (mount saved))) as H.
    unfold gen_calls in H.
    change (count is_generate (snd (mount saved))) with 0. lia. }
  split; [|split; [exact Hle|split]].
  - intros a h M. simpl. destruct (channel_room h (open_channels a)); reflexivity.
  - intros saved evs t ctx pers img Hin.
    rewrite run_app_run in Hin. cbn [snd] in Hin.
    apply in_app_or in Hin. destruct Hin as [Hin|Hin].
    + simpl in Hin. destruct Hin as [H|[H|[]]]; discriminate.
    + now apply run_generate_from_send in Hin.
  - intros saved evs Hno.
    specialize (Hle saved evs).
    rewrite (count_none is_send evs) in Hle; [lia|].
    rewrite forallb_forall in Hno. intros e He.
    apply Hno in He. now destruct (is_send e).
Qed.

Lemma delivery_never_generates_witness :
  gen_calls
    (snd (run_app (Some ana)
            [HistoryArrives "public-room-1" (Some [msgA]);
             FeedInsert 0 msgB])) = 0.
Proof.
  destruct delivery_never_generates as [_ [_ [_ H]]].
  apply H. reflexivity.
Defined.

(** ** Subscription lifetime *)

Lemma handleSendMessage_no_channel_calls (u : option UserProfile) (r : string)
  (active : option ChatSession) (text : string) (image : option string)
  (env : SendEnv) (h : nat) :
  count (is_subscribe h) (handleSendMessage u r active text image env) = 0 /\
  count (is_remove h) (handleSendMessage u r active text image env) = 0.
Proof.
  unfold handleSendMessage, count.
  destruct u as [p|]; simpl; [|auto].
  destruct (insert_error env); simpl; [auto|].
  destruct active as [s|]; simpl; [|auto].
  destruct (generated env); simpl; auto.
Qed.

Lemma select_other_room (a : App) (id : string) :
  id <> activeSessionId a ->
  step a (Select id) =
  (mkApp (sessions a) id (userProfile a) (next_channel a)
     (filter (fun c => negb (Nat.eqb (fst c) (channel a))) (open_channels a)
      ++ [(next_channel a, id)])
     (S (next_channel a)) (in_flight a ++ [id]),
   [RemoveChannel (channel a); DbSelect id;
    ChannelSubscribe (next_channel a) id]).
Proof.
  intros H. simpl. apply String.eqb_neq in H. now rewrite H.
Qed.

Lemma mount_accounted (saved : option UserProfile) :
  channels_accounted (fst (mount saved)) (snd (mount saved)).
Proof.
  unfold channels_accounted, count. simpl. repeat split.
  - destruct h; reflexivity.
Qed.

Lemma step_accounted (a : App) (out : list Effect) (e : Event) :
  channels_accounted a out ->
  channels_accounted (fst (step a e)) (out ++ snd (step a e)).
Proof.
  intros Hacc.
  assert (Hsame : forall a' out',
             channel a' = channel a -> next_channel a' = next_channel a ->
             open_channels a' = open_channels a ->
             activeSessionId a' = activeSessionId a ->
             (forall h, count (is_subscribe h) out' = 0 /\
                        count (is_remove h) out' = 0) ->
             channels_accounted a' (out ++ out')).
  { intros a' out' Hc Hn Ho Ha Hout.
    destruct Hacc as [H1 [H2 H3]].
    unfold channels_accounted. rewrite Hc, Hn, Ho, Ha.
    split; [exact H1|]. split; [exact H2|].
    intros h. rewrite !count_app.
    destruct (Hout h) as [-> ->]. rewrite !Nat.add_0_r. apply H3. }
  destruct e as [id|room [d|]|h M|text image env|trimmed].
  - destruct (String.eqb_spec id (activeSessionId a)) as [Heq|Hne].
    + simpl. apply String.eqb_eq in Heq. rewrite Heq. simpl.
      apply Hsame; auto.
    + rewrite (select_other_room a id Hne). cbn [fst snd].
      destruct Hacc as [H1 [H2 H3]].
      unfold channels_accounted. cbn [next_channel channel open_channels
                                      activeSessionId].
      split; [reflexivity|]. split.
      * rewrite H2. simpl. now rewrite Nat.eqb_refl.
      * intros h. rewrite !count_app. destruct (H3 h) as [-> ->].
        rewrite H1. unfold count.
        cbn [filter is_subscribe is_remove].
        destruct (Nat.leb_spec h (channel a));
          destruct (Nat.ltb_spec h (channel a));
          destruct (Nat.eqb_spec (channel a) h);
          destruct (Nat.eqb_spec (S (channel a)) h);
          destruct (Nat.leb_spec h (S (channel a)));
          destruct (Nat.ltb_spec h (S (channel a)));
          simpl; try lia; auto.
  - simpl. destruct (existsb _ _); simpl; apply Hsame; auto.
  - simpl. destruct (existsb _ _); simpl; apply Hsame; auto.
  - simpl. destruct (channel_room _ _); simpl; apply Hsame; auto.
  - simpl. apply Hsame; auto.
    intros h. apply handleSendMessage_no_channel_calls.
  - simpl. destruct (String.eqb trimmed ""); simpl; apply Hsame; auto.
Qed.

Lemma run_accounted (evs : list Event) :
  forall (a : App) (out : list Effect),
    channels_accounted a out ->
    channels_accounted (fst (run a evs)) (out ++ snd (run a evs)).
Proof.
  induction evs as [|e evs IH]; intros a out Hacc.
  - simpl. now rewrite app_nil_r.
  - rewrite run_cons. cbn [fst snd]. rewrite app_assoc.
    apply IH. now apply step_accounted.
Qed.

Lemma run_app_accounted (saved : option UserProfile) (evs : list Event) :
  channels_accounted (fst (run_app saved evs)) (snd (run_app saved evs)).
Proof.
  rewrite run_app_run. cbn [fst snd].
  apply run_accounted, mount_accounted.
Qed.

(** C8.  From the first render on, after any sequence of events, exactly one
    channel is open, the one of the active room, so no room has more than one
    open subscription.  Over the whole run every channel object is subscribed
    at most once and removed at most once, never without having been
    subscribed, and every subscribed channel other than the current one has
    been removed exactly once.  Switching to another room removes the
    current channel once and subscribes one new channel for the new room. *)
Theorem at_most_one_subscription (saved : option UserProfile)
  (evs : list Event) :
  let a := fst (run_app saved evs) in
  let out := snd (run_app saved evs) in
  open_channels a = [(channel a, activeSessionId a)] /\
  (forall r, subscriptions_of r a <= 1) /\
  (forall h, count (is_remove h) out <= count (is_subscribe h) out /\
             count (is_subscribe h) out <= 1) /\
  (forall h, count (is_subscribe h) out = 1 -> h <> channel a ->
             count (is_remove h) out = 1) /\
  (forall id, id <> activeSessionId a ->
     snd (step a (Select id)) =
       [RemoveChannel (channel a); DbSelect id;
        ChannelSubscribe (next_channel a) id] /\
     open_channels (fst (step a (Select id))) = [(next_channel a, id)]).
Proof.
  intros a out.
  destruct (run_app_accounted saved evs) as [H1 [H2 H3]].
  fold a in H1, H2, H3. fold out in H3.
  split; [exact H2|]. split; [|split; [|split]].
  - intros r. unfold subscriptions_of, count. rewrite H2. simpl.
    destruct (String.eqb _ r); simpl; lia.
  - intros h. destruct (H3 h) as [-> ->].
    destruct (Nat.leb_spec h (channel a));
      destruct (Nat.ltb_spec h (channel a)); lia.
  - intros h Hs Hne. destruct (H3 h) as [Hsub ->].
    rewrite Hsub in Hs.
    destruct (Nat.leb_spec h (channel a)); [|discriminate].
    destruct (Nat.ltb_spec h (channel a)); [reflexivity|lia].
  - intros id Hne. rewrite (select_other_room a id Hne). cbn [fst snd].
    split; [reflexivity|]. cbn [open_channels].
    rewrite H2. simpl. now rewrite Nat.eqb_refl.
Qed.

Lemma at_most_one_subscription_witness :
  let a := fst (run_app None [Select "creative-space";
                              Select "public-room-1"]) in
  let out := snd (run_app None [Select "creative-space";
                                Select "public-room-1"]) in
  count (is_remove 0) out = 1 /\
  open_channels (fst (step a (Select "creative-space"))) =
    [(3, "creative-space")].
Proof.
  destruct (at_most_one_subscription None
              [Select "creative-space"; Select "public-room-1"])
    as [_ [_ [_ [H1 H2]]]].
  split.
  - apply H1; [reflexivity | discriminate].
  - apply (H2 "creative-space"). discriminate.
Defined.

(** ** The store after a delivery *)

Lemma room_messages_after_insert (R : string) (M : Message)
  (prev : list ChatSession) (msgs : list Message) :
  room_messages R prev = Some msgs ->
  room_messages R (on_insert R M prev) = Some (snd (append_or_merge msgs M)).
Proof.
  unfold room_messages, on_insert.
  rewrite find_map_same_id by apply on_insert_session_id.
  destruct (js_find _ prev) as [s|] eqn:E; simpl; [|discriminate].
  intros [= <-]. apply find_id_has_id in E.
  unfold on_insert_session. apply String.eqb_eq in E. rewrite E.
  unfold append_or_merge.
  destruct (truthy _); reflexivity.
Qed.

Lemma on_insert_twice (R : string) (M : Message) (prev : list ChatSession) :
  on_insert R M (on_insert R M prev) = on_insert R M prev.
Proof.
  unfold on_insert. rewrite map_map.
  apply map_ext. intros s. apply on_insert_session_twice.
Qed.

Lemma on_insert_all_known (R : string) (M : Message)
  (prev : list ChatSession) :
  (forall s, In s prev -> ChatSession.id s = R ->
             copies (Message.id M) (ChatSession.messages s) <> 0) ->
  on_insert R M prev = prev.
Proof.
  unfold on_insert. induction prev as [|s prev IH]; intros H; [reflexivity|].
  simpl. rewrite IH by (intros s' Hs'; apply H; now right).
  f_equal.
  destruct (String.eqb_spec (ChatSession.id s) R) as [E|E].
  - apply on_insert_session_duplicate. apply H; [now left | exact E].
  - now apply on_insert_session_other.
Qed.

(** C1.  Delivering a message [M] twice through the live-feed handler of room
    [R] leaves the session list exactly as one delivery does.  When room [R]
    stores no message with [M]'s id, the merge takes the [Inserted] branch
    and the room's list in the updated session list is the former list
    followed by [M], after one delivery and after two, with exactly one copy
    of that id.  Otherwise the merge takes the [DuplicateIgnored] branch and
    the room's list is the former one; when every session of room [R] stores
    that id the whole session list is returned as it was.  On the component,
    a delivery on a channel of room [R] applies this update and nothing
    else, and a second delivery of [M] leaves the state of the first. *)
Theorem append_or_merge_idempotent (R : string) (M : Message) :
  (forall prev : list ChatSession,
      on_insert R M (on_insert R M prev) = on_insert R M prev) /\
  (forall (prev : list ChatSession) (msgs : list Message),
      room_messages R prev = Some msgs ->
      copies (Message.id M) msgs = 0 ->
      fst (append_or_merge msgs M) = Inserted /\
      room_messages R (on_insert R M prev) = Some (msgs ++ [M]) /\
      room_messages R (on_insert R M (on_insert R M prev)) =
        Some (msgs ++ [M]) /\
      copies (Message.id M) (msgs ++ [M]) = 1) /\
  (forall (prev : list ChatSession) (msgs : list Message),
      room_messages R prev = Some msgs ->
      copies (Message.id M) msgs <> 0 ->
      append_or_merge msgs M = (DuplicateIgnored, msgs) /\
      room_messages R (on_insert R M prev) = Some msgs) /\
  (forall prev : list ChatSession,
      (forall s, In s prev -> ChatSession.id s = R ->
                 copies (Message.id M) (ChatSession.messages s) <> 0) ->
      on_insert R M prev = prev) /\
  (forall (a : App) (h : nat),
      channel_room h (open_channels a) = Some R ->
      step a (FeedInsert h M) = (setSessions (on_insert R M) a, []) /\
      step (fst (step a (FeedInsert h M))) (FeedInsert h M) =
        (fst (step a (FeedInsert h M)), []) /\
      (forall msgs,
          room_messages R (sessions a) = Some msgs ->
          copies (Message.id M) msgs = 0 ->
          room_messages R
            (sessions
               (fst (step (fst (step a (FeedInsert h M))) (FeedInsert h M))))
          = Some (msgs ++ [M]))).
Proof.
  assert (Hfresh : forall prev msgs,
             room_messages R prev = Some msgs ->
             copies (Message.id M) msgs = 0 ->
             room_messages R (on_insert R M prev) = Some (msgs ++ [M])).
  { intros prev msgs Hr H0.
    rewrite (room_messages_after_insert R M prev msgs Hr).
    now rewrite (append_or_merge_fresh msgs M H0). }
  split; [exact (on_insert_twice R M)|]. split; [|split; [|split]].
  - intros prev msgs Hr H0.
    rewrite on_insert_twice, (Hfresh prev msgs Hr H0).
    rewrite (append_or_merge_fresh msgs M H0).
    rewrite copies_app, copies_self, H0. auto.
  - intros prev msgs Hr H0.
    rewrite (room_messages_after_insert R M prev msgs Hr).
    rewrite (append_or_merge_duplicate msgs M H0). auto.
  - exact (on_insert_all_known R M).
  - intros a h Hh.
    assert (H1 : step a (FeedInsert h M) = (setSessions (on_insert R M) a, []))
      by (cbn [step]; now rewrite Hh).
    assert (H2 : step (fst (step a (FeedInsert h M))) (FeedInsert h M) =
                 (fst (step a (FeedInsert h M)), [])).
    { rewrite H1. cbn [fst step setSessions open_channels]. rewrite Hh.
      unfold setSessions. cbn [sessions activeSessionId userProfile channel
                                 open_channels next_channel in_flight].
      now rewrite on_insert_twice. }
    split; [exact H1|]. split; [exact H2|].
    intros msgs Hr H0. rewrite H2. cbn [fst]. rewrite H1.
    cbn [fst setSessions sessions]. now apply Hfresh.
Qed.

Lemma append_or_merge_idempotent_witness :
  room_messages "public-room-1"
    (sessions
       (fst (step (fst (step joined_app (FeedInsert 0 msgC)))
               (FeedInsert 0 msgC)))) = Some ([msgA; msgB] ++ [msgC]) /\
  room_messages "public-room-1"
    (on_insert "public-room-1" msgA (sessions joined_app)) =
  Some [msgA; msgB].
Proof.
  destruct (append_or_merge_idempotent "public-room-1" msgC)
    as [_ [_ [_ [_ H]]]].
  destruct (append_or_merge_idempotent "public-room-1" msgA)
    as [_ [_ [Hdup _]]].
  split.
  - destruct (H joined_app 0 eq_refl) as [_ [_ H3]].
    apply (H3 [msgA; msgB]); reflexivity.
  - apply (Hdup (sessions joined_app) [msgA; msgB]); [reflexivity|].
    discriminate.
Defined.

(** ** A failed write *)

(** C6, as the code has it.  When the write of the user's message returns an
    error, the send path logs it with [console.error] and stops: the calls
    made are the failed write and the console error, so no generation call is
    made and no agent message is written.  The failure is not handed back to
    the caller and no state records it: the component's state is unchanged,
    and it is the state any other outcome of the same send leaves. *)
Theorem write_failure_stops_send (a : App) (p : UserProfile) (text : string)
  (image : option string) (env : SendEnv) :
  userProfile a = Some p ->
  insert_error env = true ->
  let out := snd (step a (Send text image env)) in
  fst (step a (Send text image env)) = a /\
  out = [DbInsert (newUserMessage p (activeSessionId a) text image env);
         ConsoleError "Erro ao enviar para Supabase:"] /\
  gen_calls out = 0 /\
  agent_writes out = 0 /\
  (forall env' : SendEnv,
      fst (step a (Send text image env')) =
      fst (step a (Send text image env))).
Proof.
  intros Hp He out. subst out.
  rewrite (send_write_error a p text image env Hp He). simpl.
  repeat split.
Qed.

Lemma write_failure_stops_send_witness :
  gen_calls (snd (step joined_app (Send "hi" None env_write_fails))) = 0.
Proof.
  apply (write_failure_stops_send joined_app ana "hi" None env_write_fails);
    reflexivity.
Defined.

(** C6, as stated, fails: a send whose write fails leaves the component in
    the very state a send whose write succeeds leaves, and all it does with
    the error is one [console.error]; nothing reaches the sender. *)
Lemma write_failure_is_only_logged :
  fst (step joined_app (Send "hi" None env_write_fails)) =
  fst (step joined_app (Send "hi" None (env_ok (GenReturns "hello!")))) /\
  snd (step joined_app (Send "hi" None env_write_fails)) =
  [DbInsert (newUserMessage ana "public-room-1" "hi" None env_write_fails);
   ConsoleError "Erro ao enviar para Supabase:"].
Proof. split; reflexivity. Qed.

(** ** The context window *)

Lemma ascending_skipn (n : nat) :
  forall l : list Message, ascending l = true -> ascending (skipn n l) = true.
Proof.
  induction n as [|n IH]; intros l H; [exact H|].
  destruct l as [|m l]; [reflexivity|].
  simpl. apply IH. now apply ascending_cons in H.
Qed.

(** C9, as the code has it.  A send whose write succeeded calls the
    generation collaborator exactly once, with the text just sent, the image,
    the active session's personality, and the last five messages of that
    session in their stored order (all of them when there are fewer).  The
    window is oldest first when the session's list is ascending by
    timestamp, as it is in every run in which histories and deliveries
    arrive in timestamp order. *)
Theorem generation_input (a : App) (p : UserProfile) (s : ChatSession)
  (text : string) (image : option string) (env : SendEnv) :
  userProfile a = Some p ->
  insert_error env = false ->
  activeSession (sessions a) (activeSessionId a) = Some s ->
  let msgs := ChatSession.messages s in
  let context := skipn (List.length msgs - 5) msgs in
  filter is_generate (snd (step a (Send text image env))) =
    [GenerateResponse text context (ChatSession.personality s) image] /\
  List.length context = Nat.min 5 (List.length msgs) /\
  firstn (List.length msgs - 5) msgs ++ context = msgs /\
  (In (activeSessionId a) (map ChatSession.id (sessions a)) ->
   ChatSession.id s = activeSessionId a) /\
  (ascending msgs = true -> ascending context = true) /\
  (forall saved evs,
      a = fst (run_app saved evs) ->
      run_in_order (fst (mount saved)) evs = true ->
      ascending context = true).
Proof.
  intros Hp He Hs msgs context.
  rewrite (send_generation a p text image env Hp s He Hs).
  change (-5)%Z with (- Z.of_nat 5)%Z. rewrite js_slice_last.
  assert (Hasc : ascending msgs = true -> ascending context = true)
    by apply ascending_skipn.
  repeat split.
  - simpl. destruct (generated env); reflexivity.
  - subst context. rewrite length_skipn. lia.
  - apply firstn_skipn.
  - intros Hin. apply find_id_present in Hin. destruct Hin as [s' Hs'].
    unfold activeSession in Hs. rewrite Hs' in Hs.
    injection Hs as <-. now apply find_id_has_id in Hs'.
  - exact Hasc.
  - intros saved evs Ha Hord. apply Hasc.
    assert (Hall : all_ascending (sessions a) = true).
    { rewrite Ha, run_app_run. cbn [fst].
      apply run_keeps_ascending; [reflexivity | exact Hord]. }
    apply activeSession_in in Hs.
    unfold all_ascending in Hall. rewrite forallb_forall in Hall.
    now apply Hall.
Qed.

Lemma generation_input_witness :
  filter is_generate
    (snd (step busy_app (Send "hi" None (env_ok (GenReturns "hello!"))))) =
  [GenerateResponse "hi"
     [sample_message "h3" 13; sample_message "h4" 14; sample_message "h5" 15;
      sample_message "h6" 16; sample_message "h7" 17]
     (ChatSession.personality lounge) None] /\
  ascending
    [sample_message "h3" 13; sample_message "h4" 14; sample_message "h5" 15;
     sample_message "h6" 16; sample_message "h7" 17] = true.
Proof.
  destruct (generation_input busy_app ana busy_lounge "hi" None
              (env_ok (GenReturns "hello!")) eq_refl eq_refl eq_refl)
    as [H1 [_ [_ [_ [_ H2]]]]].
  split.
  - exact H1.
  - apply (H2 (Some ana)
             [HistoryArrives "public-room-1" (Some long_history)]);
      reflexivity.
Defined.

(** C9, as stated, fails: after the feed delivered the newer of two messages
    first, the context of the next send lists the newer message before the
    older one. *)
Lemma context_follows_stored_order :
  filter is_generate
    (snd (step unordered_app (Send "hi" None (env_ok (GenReturns "hello!")))))
  = [GenerateResponse "hi" [msgLate; msgEarly]
       (ChatSession.personality lounge) None] /\
  ascending [msgLate; msgEarly] = false /\
  (Message.timestamp msgEarly < Message.timestamp msgLate)%Z.
Proof. repeat split. Qed.

(** ** When a sent message becomes visible *)

Lemma copies_eqb_zero (i : string) (l : list Message) :
  Nat.eqb (copies i l) 0 = true <-> copies i l = 0.
Proof. apply Nat.eqb_eq. Qed.

Lemma step_keeps_absent (i : string) (a : App) (e : Event) :
  absent_everywhere i (sessions a) = true ->
  brings i e = false ->
  absent_everywhere i (sessions (fst (step a e))) = true.
Proof.
  intros Habs Hb. unfold absent_everywhere in *.
  destruct e as [id|room [d|]|h M|text image env|trimmed]; simpl.
  - destruct (String.eqb id (activeSessionId a)); exact Habs.
  - destruct (existsb (String.eqb room) (in_flight a)); [|exact Habs].
    simpl. unfold load_initial. rewrite forallb_over_map.
    rewrite forallb_forall in *. intros s Hs.
    unfold load_initial_session.
    destruct (String.eqb (ChatSession.id s) room); simpl; [|now apply Habs].
    simpl in Hb. now apply negb_false_iff in Hb.
  - destruct (existsb (String.eqb room) (in_flight a)); exact Habs.
  - destruct (channel_room h (open_channels a)) as [room|]; [|exact Habs].
    simpl. unfold on_insert. rewrite forallb_over_map.
    rewrite forallb_forall in *. intros s Hs.
    specialize (Habs s Hs).
    unfold on_insert_session, append_or_merge.
    destruct (String.eqb (ChatSession.id s) room); [|exact Habs].
    destruct (truthy _); [exact Habs|]. simpl.
    apply copies_eqb_zero in Habs. apply copies_eqb_zero.
    rewrite copies_app, Habs. unfold copies. simpl.
    simpl in Hb. now rewrite Hb.
  - exact Habs.
  - destruct (String.eqb trimmed ""); exact Habs.
Qed.

Lemma run_keeps_absent (i : string) (evs : list Event) :
  forall a : App,
    absent_everywhere i (sessions a) = true ->
    forallb (fun e => negb (brings i e)) evs = true ->
    absent_everywhere i (sessions (fst (run a evs))) = true.
Proof.
  induction evs as [|e evs IH]; intros a Habs Hno; [exact Habs|].
  simpl in Hno. apply andb_true_iff in Hno. destruct Hno as [He Hevs].
  apply negb_true_iff in He.
  rewrite run_fst_cons.
  apply IH; [now apply step_keeps_absent | exact Hevs].
Qed.

(** C10, as the code has it.  A send never touches the session list:
    whatever the write and the generation return, every room's list is what
    it was, and the snapshot does not hold the new message.  Sends, room
    switches and joins that follow leave the lists as they were, and as long
    as neither a delivery of a message with that id nor a fetched history
    holding one arrives, no room stores the id.  The message enters the
    snapshot when the feed delivers it on the active room's channel, and
    also, without any delivery, when a fetched history that holds it is
    applied to the active room. *)
Theorem send_has_no_optimistic_append (a : App) (p : UserProfile)
  (s : ChatSession) (h : nat) (text : string) (image : option string)
  (env : SendEnv) :
  userProfile a = Some p ->
  js_find (fun s => String.eqb (ChatSession.id s) (activeSessionId a))
    (sessions a) = Some s ->
  channel_room h (open_channels a) = Some (activeSessionId a) ->
  let M := newUserMessage p (activeSessionId a) text image env in
  copies (Message.id M) (ChatSession.messages s) = 0 ->
  let sent := step a (Send text image env) in
  let echoed := step (fst sent) (FeedInsert h M) in
  In (DbInsert M) (snd sent) /\
  sessions (fst sent) = sessions a /\
  snapshot (fst sent) = ChatSession.messages s /\
  copies (Message.id M) (snapshot (fst sent)) = 0 /\
  (forall evs, forallb (fun e => negb (writes_sessions e)) evs = true ->
               sessions (fst (run (fst sent) evs)) = sessions a) /\
  (forall evs,
      absent_everywhere (Message.id M) (sessions a) = true ->
      forallb (fun e => negb (brings (Message.id M) e)) evs = true ->
      absent_everywhere (Message.id M)
        (sessions (fst (run (fst sent) evs))) = true) /\
  snapshot (fst echoed) = ChatSession.messages s ++ [M] /\
  (forall data,
      existsb (String.eqb (activeSessionId a)) (in_flight a) = true ->
      snapshot
        (fst (step (fst sent)
                (HistoryArrives (activeSessionId a) (Some data)))) = data).
Proof.
  intros Hp Hs Hh M HM sent echoed.
  assert (Hsnap : snapshot a = ChatSession.messages s)
    by now apply snapshot_found.
  pose proof (find_id_has_id _ _ _ Hs) as Hid.
  subst sent echoed. rewrite send_keeps_state.
  repeat split; auto.
  - simpl. unfold handleSendMessage. rewrite Hp. left. reflexivity.
  - now rewrite Hsnap.
  - intros evs Hevs. now apply run_sessions_frame.
  - intros evs Habs Hevs. now apply run_keeps_absent.
  - simpl. rewrite Hh. simpl.
    unfold snapshot, activeSession. simpl. unfold on_insert.
    rewrite find_map_same_id by apply on_insert_session_id.
    rewrite Hs. simpl.
    rewrite on_insert_session_fresh; auto.
  - intros data Hfl. cbn [step]. rewrite Hfl.
    unfold snapshot, activeSession.
    cbn [fst setSessions sessions activeSessionId].
    unfold load_initial.
    rewrite find_map_same_id by apply load_initial_session_id.
    rewrite Hs. simpl.
    now rewrite (load_initial_session_same _ data s Hid).
Qed.

Lemma send_has_no_optimistic_append_witness :
  let M := newUserMessage ana "public-room-1" "hi" None
             (env_ok (GenReturns "hello!")) in
  snapshot
    (fst (step
            (fst (step joined_app
                    (Send "hi" None (env_ok (GenReturns "hello!")))))
            (FeedInsert 0 M))) = [msgA; msgB] ++ [M] /\
  absent_everywhere "m1"
    (sessions
       (fst (run (fst (step joined_app
                         (Send "hi" None (env_ok (GenReturns "hello!")))))
               [Select "creative-space"; FeedInsert 1 msgStray;
                HistoryArrives "creative-space" (Some [msgC])]))) = true.
Proof.
  destruct (send_has_no_optimistic_append joined_app ana lounge 0 "hi" None
              (env_ok (GenReturns "hello!")) eq_refl eq_refl eq_refl eq_refl)
    as [_ [_ [_ [_ [_ [Habs [Hecho _]]]]]]].
  split.
  - exact Hecho.
  - apply Habs; reflexivity.
Defined.

(** C10, as stated, fails: a client joins and sends while the first fetch is
    still in flight; the fetched history that then arrives holds the sent
    message, and the snapshot shows it although the feed delivered
    nothing. *)
Lemma history_shows_sent_message_without_echo :
  let env := env_ok (GenReturns "hello!") in
  let M := newUserMessage ana "public-room-1" "hi" None env in
  let evs := [Join "ana"; Send "hi" None env;
              HistoryArrives "public-room-1" (Some [M])] in
  In (DbInsert M) (snd (run_app None evs)) /\
  count is_delivery evs = 0 /\
  snapshot (fst (run_app None [Join "ana"; Send "hi" None env])) = [] /\
  snapshot (fst (run_app None evs)) = [M].
Proof.
  repeat split. simpl. right; right; left. reflexivity.
Qed.

(** * Further properties of the component *)

(** ** The room catalog *)

Lemma catalog_entry_on_insert (R : string) (M : Message) (s : ChatSession) :
  catalog_entry (on_insert_session R M s) = catalog_entry s.
Proof.
  unfold on_insert_session.
  destruct (String.eqb (ChatSession.id s) R); [|reflexivity].
  destruct (append_or_merge (ChatSession.messages s) M) as [[|] ms];
    reflexivity.
Qed.

Lemma catalog_entry_load_initial (R : string) (data : list Message)
  (s : ChatSession) :
  catalog_entry (load_initial_session R data s) = catalog_entry s.
Proof.
  unfold load_initial_session.
  destruct (String.eqb (ChatSession.id s) R); reflexivity.
Qed.

Lemma catalog_map (f : ChatSession -> ChatSession) (ss : list ChatSession) :
  (forall s, catalog_entry (f s) = catalog_entry s) ->
  catalog (map f ss) = catalog ss.
Proof.
  intros H. unfold catalog. rewrite map_map. apply map_ext. exact H.
Qed.

Lemma step_catalog (a : App) (e : Event) :
  catalog (sessions (fst (step a e))) = catalog (sessions a).
Proof.
  destruct e as [id|room [d|]|h M|text image env|trimmed]; simpl.
  - destruct (String.eqb id (activeSessionId a)); reflexivity.
  - destruct (existsb _ _); [|reflexivity]. simpl.
    apply catalog_map. intros s. apply catalog_entry_load_initial.
  - destruct (existsb _ _); reflexivity.
  - destruct (channel_room _ _) as [room|]; [|reflexivity]. simpl.
    apply catalog_map. intros s. apply catalog_entry_on_insert.
  - reflexivity.
  - destruct (String.eqb trimmed ""); reflexivity.
Qed.

Lemma run_catalog (evs : list Event) :
  forall a : App, catalog (sessions (fst (run a evs))) = catalog (sessions a).
Proof.
  induction evs as [|e evs IH]; intros a; [reflexivity|].
  rewrite run_fst_cons, IH. apply step_catalog.
Qed.

(** X1.  No handler adds, removes, renames or reorders a room: after any
    sequence of events the session list has the ids, names, avatars and
    personalities of [INITIAL_SESSIONS], in the same order, so it holds two
    sessions and [activeSession] is always defined (it is one of them). *)
Theorem catalog_is_fixed (saved : option UserProfile) (evs : list Event) :
  catalog (sessions (fst (run_app saved evs))) = catalog INITIAL_SESSIONS /\
  List.length (sessions (fst (run_app saved evs))) = 2 /\
  exists s,
    activeSession (sessions (fst (run_app saved evs)))
      (activeSessionId (fst (run_app saved evs))) = Some s /\
    In s (sessions (fst (run_app saved evs))).
Proof.
  assert (Hcat : catalog (sessions (fst (run_app saved evs))) =
                 catalog INITIAL_SESSIONS).
  { rewrite run_app_run. cbn [fst]. now rewrite run_catalog. }
  assert (Hlen : List.length (sessions (fst (run_app saved evs))) = 2).
  { apply (f_equal (@List.length _)) in Hcat.
    unfold catalog in Hcat. rewrite !length_map in Hcat. exact Hcat. }
  split; [exact Hcat|]. split; [exact Hlen|].
  destruct (activeSession _ _) as [s|] eqn:E.
  - exists s. split; [reflexivity|]. now apply activeSession_in in E.
  - exfalso. unfold activeSession in E.
    destruct (js_find _ _); [discriminate|].
    destruct (sessions (fst (run_app saved evs))); simpl in *; discriminate.
Qed.

(** ** Distinct ids *)

Lemma same_id_sym (m1 m2 : Message) : same_id m1 m2 = same_id m2 m1.
Proof. unfold same_id. apply String.eqb_sym. Qed.

Lemma distinct_ids_snoc (l : list Message) (M : Message) :
  distinct_ids l = true ->
  existsb (same_id M) l = false ->
  distinct_ids (l ++ [M]) = true.
Proof.
  induction l as [|m l IH]; intros Hd Hf; [reflexivity|].
  cbn [distinct_ids] in Hd. cbn [existsb] in Hf.
  apply andb_true_iff in Hd. destruct Hd as [Hm Hl].
  apply orb_false_iff in Hf. destruct Hf as [HMm HMl].
  change ((m :: l) ++ [M]) with (m :: (l ++ [M])).
  cbn [distinct_ids]. rewrite existsb_app. cbn [existsb].
  rewrite (same_id_sym m M), HMm, !orb_false_r, Hm.
  cbn [negb andb]. now apply IH.
Qed.

Lemma step_keeps_distinct (a : App) (e : Event) :
  all_distinct (sessions a) = true ->
  history_distinct e = true ->
  all_distinct (sessions (fst (step a e))) = true.
Proof.
  intros Hall Hh. unfold all_distinct in *.
  destruct e as [id|room [d|]|h M|text image env|trimmed]; simpl.
  - destruct (String.eqb id (activeSessionId a)); exact Hall.
  - destruct (existsb (String.eqb room) (in_flight a)); [|exact Hall].
    simpl. unfold load_initial. rewrite forallb_over_map.
    rewrite forallb_forall in *. intros s Hs.
    unfold load_initial_session.
    destruct (String.eqb (ChatSession.id s) room); simpl; auto.
  - destruct (existsb (String.eqb room) (in_flight a)); exact Hall.
  - destruct (channel_room h (open_channels a)) as [room|]; [|exact Hall].
    simpl. unfold on_insert. rewrite forallb_over_map.
    rewrite forallb_forall in *. intros s Hs.
    specialize (Hall s Hs).
    unfold on_insert_session, append_or_merge.
    destruct (String.eqb (ChatSession.id s) room); [|exact Hall].
    rewrite truthy_find_existsb.
    destruct (existsb (same_id M) (ChatSession.messages s)) eqn:E;
      [exact Hall|].
    simpl. now apply distinct_ids_snoc.
  - exact Hall.
  - destruct (String.eqb trimmed ""); exact Hall.
Qed.

Lemma run_keeps_distinct (evs : list Event) :
  forall a : App,
    all_distinct (sessions a) = true ->
    forallb history_distinct evs = true ->
    all_distinct (sessions (fst (run a evs))) = true.
Proof.
  induction evs as [|e evs IH]; intros a Hall Hh; [exact Hall|].
  simpl in Hh. apply andb_true_iff in Hh. destruct Hh as [He Hevs].
  rewrite run_fst_cons.
  apply IH; [now apply step_keeps_distinct | exact Hevs].
Qed.

(** X2.  If no fetched history holds two rows with the same id, no room's
    list ever holds two messages with the same id, whatever the feed
    delivers and however often it redelivers: after any sequence of events
    the ids of every room's list are pairwise distinct, and so are those of
    the snapshot. *)
Theorem ids_stay_distinct (saved : option UserProfile) (evs : list Event) :
  forallb history_distinct evs = true ->
  all_distinct (sessions (fst (run_app saved evs))) = true /\
  distinct_ids (snapshot (fst (run_app saved evs))) = true.
Proof.
  intros Hh.
  assert (Hall : all_distinct (sessions (fst (run_app saved evs))) = true).
  { rewrite run_app_run. cbn [fst].
    apply run_keeps_distinct; [reflexivity | exact Hh]. }
  split; [exact Hall|].
  unfold snapshot.
  destruct (activeSession _ _) as [s|] eqn:E; [|reflexivity].
  apply activeSession_in in E.
  unfold all_distinct in Hall. rewrite forallb_forall in Hall.
  now apply Hall.
Qed.

Lemma ids_stay_distinct_witness :
  distinct_ids
    (snapshot
       (fst (run_app None
               [HistoryArrives "public-room-1" (Some [msgA; msgB]);
                FeedInsert 0 msgC; FeedInsert 0 msgA; FeedInsert 0 msgC])))
  = true.
Proof.
  apply (ids_stay_distinct None
           [HistoryArrives "public-room-1" (Some [msgA; msgB]);
            FeedInsert 0 msgC; FeedInsert 0 msgA; FeedInsert 0 msgC]).
  reflexivity.
Defined.

(** ** What a delivery can do to a room *)

Lemma on_insert_session_extends (R : string) (M : Message) (s : ChatSession) :
  exists tail,
    ChatSession.messages (on_insert_session R M s) =
      ChatSession.messages s ++ tail /\
    List.length tail <= 1.
Proof.
  unfold on_insert_session, append_or_merge.
  destruct (String.eqb (ChatSession.id s) R);
    [destruct (truthy _)|]; simpl.
  - exists []. rewrite app_nil_r. auto.
  - exists [M]. auto.
  - exists []. rewrite app_nil_r. auto.
Qed.

Lemma room_messages_on_insert (r R : string) (M : Message)
  (ss : list ChatSession) (msgs : list Message) :
  room_messages r ss = Some msgs ->
  exists tail,
    room_messages r (on_insert R M ss) = Some (msgs ++ tail) /\
    List.length tail <= 1.
Proof.
  unfold room_messages, on_insert.
  rewrite find_map_same_id by apply on_insert_session_id.
  destruct (js_find _ ss) as [s|]; simpl; [|discriminate].
  intros [= <-].
  destruct (on_insert_session_extends R M s) as [tail [Ht Hl]].
  exists tail. now rewrite Ht.
Qed.

Lemma step_extends (a : App) (e : Event) (r : string) (msgs : list Message) :
  loads_history e = false ->
  room_messages r (sessions a) = Some msgs ->
  exists tail,
    room_messages r (sessions (fst (step a e))) = Some (msgs ++ tail) /\
    List.length tail <= count is_delivery [e].
Proof.
  intros He Hr.
  assert (Hsame : sessions (fst (step a e)) = sessions a ->
                  exists tail,
                    room_messages r (sessions (fst (step a e))) =
                      Some (msgs ++ tail) /\
                    List.length tail <= count is_delivery [e]).
  { intros ->. exists []. rewrite app_nil_r. split; [exact Hr|]. simpl. lia. }
  destruct e as [id|room [d|]|h M|text image env|trimmed];
    try discriminate; try (apply Hsame; now apply step_sessions_frame).
  - apply Hsame. simpl. destruct (existsb _ _); reflexivity.
  - simpl. destruct (channel_room h (open_channels a)) as [room|]; simpl.
    + destruct (room_messages_on_insert r room M _ _ Hr) as [tail [Ht Hl]].
      exists tail. split; [exact Ht|]. exact Hl.
    + exists []. rewrite app_nil_r. split; [exact Hr|]. unfold count. simpl. lia.
Qed.

(** X3.  As long as no fetched history is applied, nothing is ever dropped
    from a room or reordered in it: after any sequence of deliveries, sends,
    room switches, joins and failed fetches, a room's list is its former list
    followed by at most one new message per delivery. *)
Theorem deliveries_only_extend (a : App) (evs : list Event) (r : string)
  (msgs : list Message) :
  forallb (fun e => negb (loads_history e)) evs = true ->
  room_messages r (sessions a) = Some msgs ->
  exists tail,
    room_messages r (sessions (fst (run a evs))) = Some (msgs ++ tail) /\
    List.length tail <= count is_delivery evs.
Proof.
  revert a r msgs.
  induction evs as [|e evs IH]; intros a r msgs Hno Hr.
  - exists []. rewrite app_nil_r. split; [exact Hr|]. unfold count. simpl. lia.
  - simpl in Hno. apply andb_true_iff in Hno. destruct Hno as [He Hevs].
    apply negb_true_iff in He.
    destruct (step_extends a e r msgs He Hr) as [t1 [H1 L1]].
    destruct (IH (fst (step a e)) r (msgs ++ t1) Hevs H1) as [t2 [H2 L2]].
    exists (t1 ++ t2). rewrite run_fst_cons, app_assoc.
    split; [exact H2|].
    change (e :: evs) with ([e] ++ evs).
    rewrite count_app, length_app. lia.
Qed.

Lemma deliveries_only_extend_witness :
  exists tail,
    room_messages "public-room-1"
      (sessions
         (fst (run joined_app
                 [FeedInsert 0 msgC; Select "creative-space";
                  HistoryArrives "creative-space" None;
                  Send "hi" None (env_ok GenThrows)])))
    = Some ([msgA; msgB] ++ tail) /\
    List.length tail <= 1.
Proof.
  apply (deliveries_only_extend joined_app
           [FeedInsert 0 msgC; Select "creative-space";
            HistoryArrives "creative-space" None;
            Send "hi" None (env_ok GenThrows)]
           "public-room-1" [msgA; msgB]); reflexivity.
Defined.

Lemma room_messages_insert_other (r R : string) (M : Message)
  (ss : list ChatSession) :
  r <> R ->
  room_messages r (on_insert R M ss) = room_messages r ss.
Proof.
  intros Hr. unfold room_messages, on_insert.
  rewrite find_map_same_id by apply on_insert_session_id.
  destruct (js_find _ ss) as [s|] eqn:E; [|reflexivity].
  simpl. apply find_id_has_id in E.
  rewrite on_insert_session_other; [reflexivity | congruence].
Qed.

(** X4.  A delivery is filed under the room captured by the channel's
    handler, whatever [session_id] the delivered row carries: a row with a
    new id is appended to that room's list, every other room's list is left
    as it was, and the active room, the profile, the open channels and the
    pending fetches are untouched. *)
Theorem delivery_changes_only_its_room (a : App) (h : nat) (R : string)
  (M : Message) :
  channel_room h (open_channels a) = Some R ->
  let a' := fst (step a (FeedInsert h M)) in
  (forall msgs,
      room_messages R (sessions a) = Some msgs ->
      copies (Message.id M) msgs = 0 ->
      room_messages R (sessions a') = Some (msgs ++ [M])) /\
  (forall r, r <> R ->
             room_messages r (sessions a') = room_messages r (sessions a)) /\
  activeSessionId a' = activeSessionId a /\
  userProfile a' = userProfile a /\
  open_channels a' = open_channels a /\
  in_flight a' = in_flight a.
Proof.
  intros Hh a'. subst a'. simpl. rewrite Hh. simpl.
  split; [|split; [|repeat split]].
  - intros msgs Hr H0. unfold room_messages, on_insert in *.
    rewrite find_map_same_id by apply on_insert_session_id.
    destruct (js_find _ (sessions a)) as [s|] eqn:E; [|discriminate].
    simpl in *. injection Hr as <-.
    apply find_id_has_id in E.
    now rewrite (on_insert_session_fresh R M s E H0).
  - intros r Hr. now apply room_messages_insert_other.
Qed.

Lemma delivery_changes_only_its_room_witness :
  room_messages "public-room-1"
    (sessions (fst (step joined_app (FeedInsert 0 msgStray))))
  = Some ([msgA; msgB] ++ [msgStray]) /\
  room_messages "creative-space"
    (sessions (fst (step joined_app (FeedInsert 0 msgStray))))
  = Some [].
Proof.
  destruct (delivery_changes_only_its_room joined_app 0 "public-room-1"
              msgStray eq_refl) as [H1 [H2 _]].
  split.
  - apply H1; reflexivity.
  - exact (eq_trans (H2 "creative-space" ltac:(discriminate)) eq_refl).
Defined.

(** ** Fetched histories *)

(** X5.  A fetch that fails (an error, or no data) leaves every room's list
    as it was.  A fetch that succeeds gives its room exactly the fetched rows
    and nothing else, so an empty result empties the room, live messages
    included. *)
Theorem history_result_applied (a : App) (room : string) :
  existsb (String.eqb room) (in_flight a) = true ->
  sessions (fst (step a (HistoryArrives room None))) = sessions a /\
  (forall data msgs,
      room_messages room (sessions a) = Some msgs ->
      room_messages room
        (sessions (fst (step a (HistoryArrives room (Some data))))) =
      Some data) /\
  (forall msgs,
      room_messages room (sessions a) = Some msgs ->
      room_messages room
        (sessions (fst (step a (HistoryArrives room (Some []))))) =
      Some []).
Proof.
  intros Hfl.
  assert (Hload : forall data msgs,
             room_messages room (sessions a) = Some msgs ->
             room_messages room
               (sessions (fst (step a (HistoryArrives room (Some data))))) =
             Some data).
  { intros data msgs Hr. simpl. rewrite Hfl. simpl.
    unfold room_messages, load_initial in *.
    rewrite find_map_same_id by apply load_initial_session_id.
    destruct (js_find _ (sessions a)) as [s|] eqn:E; [|discriminate].
    simpl. apply find_id_has_id in E.
    now rewrite (load_initial_session_same room data s E). }
  split; [|split].
  - simpl. now rewrite Hfl.
  - exact Hload.
  - intros msgs. apply Hload.
Qed.

Lemma history_result_applied_witness :
  room_messages "public-room-1"
    (sessions
       (fst (step (fst (run_app None [FeedInsert 0 msgC]))
               (HistoryArrives "public-room-1" (Some [])))))
  = Some [].
Proof.
  destruct (history_result_applied (fst (run_app None [FeedInsert 0 msgC]))
              "public-room-1" eq_refl) as [_ [_ H]].
  apply (H [msgC]). reflexivity.
Defined.

Lemma load_initial_session_twice (R : string) (d1 d2 : list Message)
  (s : ChatSession) :
  load_initial_session R d2 (load_initial_session R d1 s) =
  load_initial_session R d2 s.
Proof.
  unfold load_initial_session.
  destruct (String.eqb (ChatSession.id s) R) eqn:E; simpl; rewrite E;
    reflexivity.
Qed.

Lemma load_initial_session_swap (R1 R2 : string) (d1 d2 : list Message)
  (s : ChatSession) :
  R1 <> R2 ->
  load_initial_session R1 d1 (load_initial_session R2 d2 s) =
  load_initial_session R2 d2 (load_initial_session R1 d1 s).
Proof.
  intros Hne. unfold load_initial_session.
  destruct (String.eqb (ChatSession.id s) R1) eqn:E1;
    destruct (String.eqb (ChatSession.id s) R2) eqn:E2;
    simpl; rewrite ?E1, ?E2; try reflexivity.
  apply String.eqb_eq in E1. apply String.eqb_eq in E2. congruence.
Qed.

(** X6.  Of two histories applied to the same room the later one wins (and
    applying the same history twice is applying it once); histories applied
    to different rooms do not interfere, in whichever order they arrive. *)
Theorem histories_compose (d1 d2 : list Message) (ss : list ChatSession) :
  (forall R, load_initial R d2 (load_initial R d1 ss) = load_initial R d2 ss) /\
  (forall R1 R2, R1 <> R2 ->
     load_initial R1 d1 (load_initial R2 d2 ss) =
     load_initial R2 d2 (load_initial R1 d1 ss)).
Proof.
  split.
  - intros R. unfold load_initial. rewrite map_map.
    apply map_ext. intros s. apply load_initial_session_twice.
  - intros R1 R2 Hne. unfold load_initial. rewrite !map_map.
    apply map_ext. intros s. now apply load_initial_session_swap.
Qed.

Lemma histories_compose_witness :
  load_initial "public-room-1" [msgA]
    (load_initial "creative-space" [msgB] INITIAL_SESSIONS) =
  load_initial "creative-space" [msgB]
    (load_initial "public-room-1" [msgA] INITIAL_SESSIONS).
Proof.
  destruct (histories_compose [msgA] [msgB] INITIAL_SESSIONS) as [_ H].
  apply H. discriminate.
Defined.

Lemma on_insert_load_session_swap (R R' : string) (M : Message)
  (d : list Message) (s : ChatSession) :
  R <> R' ->
  on_insert_session R M (load_initial_session R' d s) =
  load_initial_session R' d (on_insert_session R M s).
Proof.
  intros Hne.
  destruct (String.eqb_spec (ChatSession.id s) R') as [E|E].
  - rewrite (load_initial_session_same R' d s E).
    rewrite on_insert_session_other by (simpl; congruence).
    rewrite on_insert_session_other by congruence.
    now rewrite load_initial_session_same.
  - rewrite (load_initial_session_other R' d s E).
    rewrite load_initial_session_other; [reflexivity|].
    now rewrite on_insert_session_id.
Qed.

Lemma on_insert_session_swap (R1 R2 : string) (M1 M2 : Message)
  (s : ChatSession) :
  R1 <> R2 ->
  on_insert_session R1 M1 (on_insert_session R2 M2 s) =
  on_insert_session R2 M2 (on_insert_session R1 M1 s).
Proof.
  intros Hne.
  destruct (String.eqb_spec (ChatSession.id s) R1) as [E|E].
  - rewrite (on_insert_session_other R2 M2 s) by congruence.
    rewrite (on_insert_session_other R2 M2); [reflexivity|].
    rewrite on_insert_session_id. congruence.
  - rewrite (on_insert_session_other R1 M1 s E).
    rewrite on_insert_session_other; [reflexivity|].
    now rewrite on_insert_session_id.
Qed.

(** X7.  Handlers of different rooms commute: a delivery to one room and a
    history applied to another, or two deliveries to different rooms, give
    the same session list in either order.  In particular a late history for
    the room just left cannot disturb what the feed delivers to the new
    one. *)
Theorem handlers_of_different_rooms_commute (ss : list ChatSession) :
  (forall R R' M d, R <> R' ->
     on_insert R M (load_initial R' d ss) =
     load_initial R' d (on_insert R M ss)) /\
  (forall R1 R2 M1 M2, R1 <> R2 ->
     on_insert R1 M1 (on_insert R2 M2 ss) =
     on_insert R2 M2 (on_insert R1 M1 ss)).
Proof.
  split.
  - intros R R' M d Hne. unfold on_insert, load_initial. rewrite !map_map.
    apply map_ext. intros s. now apply on_insert_load_session_swap.
  - intros R1 R2 M1 M2 Hne. unfold on_insert. rewrite !map_map.
    apply map_ext. intros s. now apply on_insert_session_swap.
Qed.

Lemma handlers_of_different_rooms_commute_witness :
  on_insert "creative-space" msgStray
    (load_initial "public-room-1" [msgA; msgB] INITIAL_SESSIONS) =
  load_initial "public-room-1" [msgA; msgB]
    (on_insert "creative-space" msgStray INITIAL_SESSIONS).
Proof.
  destruct (handlers_of_different_rooms_commute INITIAL_SESSIONS) as [H _].
  apply H. discriminate.
Defined.

(** ** What a client writes *)

Lemma handleSendMessage_rows (u : option UserProfile) (r : string)
  (active : option ChatSession) (text : string) (image : option string)
  (env : SendEnv) (row : Message) :
  In (DbInsert row) (handleSendMessage u r active text image env) ->
  (exists p, u = Some p /\ row = newUserMessage p r text image env) \/
  (exists responseText, row = botMessage r responseText env).
Proof.
  unfold handleSendMessage.
  destruct u as [p|]; simpl; [|tauto].
  intros [H|H].
  - left. exists p. split; [reflexivity|]. now injection H.
  - destruct (insert_error env); simpl in H.
    + destruct H as [H|[]]; discriminate.
    + destruct active as [s|]; simpl in H.
      * destruct H as [H|H]; [discriminate|].
        destruct (generated env) as [|rt]; simpl in H.
        -- destruct H as [H|[]]; discriminate.
        -- destruct H as [H|[]]. right. exists rt. now injection H.
      * destruct H as [H|[]]; discriminate.
Qed.

Lemma step_rows (a : App) (e : Event) (row : Message) :
  In (DbInsert row) (snd (step a e)) ->
  exists text image env,
    e = Send text image env /\
    ((exists p, userProfile a = Some p /\
                row = newUserMessage p (activeSessionId a) text image env) \/
     (exists responseText,
         row = botMessage (activeSessionId a) responseText env)).
Proof.
  destruct e as [id|room [d|]|h M|text image env|trimmed]; simpl.
  - destruct (String.eqb id (activeSessionId a)); simpl; [tauto|].
    intros [H|[H|[H|[]]]]; discriminate.
  - destruct (existsb _ _); simpl; tauto.
  - destruct (existsb _ _); simpl; tauto.
  - destruct (channel_room _ _); simpl; tauto.
  - intros H. exists text, image, env. split; [reflexivity|].
    exact (handleSendMessage_rows _ _ _ _ _ _ _ H).
  - destruct (String.eqb trimmed ""); simpl; tauto.
Qed.

Lemma run_rows (evs : list Event) :
  forall (a : App) (row : Message),
    In (DbInsert row) (snd (run a evs)) ->
    exists r text image env,
      In (Send text image env) evs /\
      ((exists p, row = newUserMessage p r text image env) \/
       (exists responseText, row = botMessage r responseText env)).
Proof.
  induction evs as [|e evs IH]; intros a row Hin; [destruct Hin|].
  rewrite run_cons in Hin. cbn [snd] in Hin.
  apply in_app_or in Hin. destruct Hin as [Hin|Hin].
  - apply step_rows in Hin.
    destruct Hin as [text [image [env [-> Hrow]]]].
    exists (activeSessionId a), text, image, env.
    split; [now left|].
    destruct Hrow as [[p [_ Hp]]|Hb]; [left; now exists p | now right].
  - destruct (IH _ _ Hin) as [r [text [image [env [Hs Hrow]]]]].
    exists r, text, image, env. split; [now right | exact Hrow].
Qed.

Lemma str_or_nonempty (a b : string) : b <> "" -> str_or a b <> "".
Proof.
  intros Hb. unfold str_or.
  destruct (String.eqb_spec a ""); assumption.
Qed.

(** X8.  Every row a client ever writes comes from one of its own sends and
    is tagged with a room id.  A user row carries that send's text and image
    and the name and avatar of a profile; an agent row has a non-empty text
    and no author and no image. *)
Theorem written_rows_are_well_formed (saved : option UserProfile)
  (evs : list Event) (row : Message) :
  In (DbInsert row) (snd (run_app saved evs)) ->
  (exists r, Message.session_id row = Some r) /\
  (exists text image env, In (Send text image env) evs /\
     (Message.role row = user ->
        Message.text row = text /\ Message.image row = image /\
        Message.id row = messageId env)) /\
  match Message.role row with
  | user =>
      exists p, Message.user_name row = Some (UserProfile.name p) /\
                Message.user_avatar row = Some (UserProfile.avatar p)
  | model =>
      Message.text row <> "" /\ Message.user_name row = None /\
      Message.user_avatar row = None /\ Message.image row = None
  end.
Proof.
  intros Hin. rewrite run_app_run in Hin. cbn [snd] in Hin.
  apply in_app_or in Hin. destruct Hin as [Hin|Hin].
  { simpl in Hin. destruct Hin as [H|[H|[]]]; discriminate. }
  apply run_rows in Hin.
  destruct Hin as [r [text [image [env [Hs [[p ->]|[rt ->]]]]]]].
  - split; [now exists r|]. split.
    + exists text, image, env. split; [exact Hs|]. intros _. repeat split.
    + simpl. exists p. split; reflexivity.
  - split; [now exists r|]. split.
    + exists text, image, env. split; [exact Hs|]. simpl. discriminate.
    + simpl. repeat split. apply str_or_nonempty. discriminate.
Qed.

Lemma written_rows_are_well_formed_witness :
  Message.text
    (botMessage "public-room-1" "" (env_ok (GenReturns ""))) <> "".
Proof.
  destruct (written_rows_are_well_formed (Some ana)
              [Send "hi" None (env_ok (GenReturns ""))]
              (botMessage "public-room-1" "" (env_ok (GenReturns ""))))
    as [_ [_ H]].
  - right; right; right; right; left. reflexivity.
  - exact (proj1 H).
Defined.

Lemma step_no_profile (a : App) (e : Event) :
  userProfile a = None ->
  sets_profile e = false ->
  userProfile (fst (step a e)) = None /\
  forall x, In x (snd (step a e)) -> is_insert x = false.
Proof.
  intros Hu He.
  destruct e as [id|room [d|]|h M|text image env|trimmed]; simpl.
  - destruct (String.eqb id (activeSessionId a)); simpl; split; auto;
      try tauto.
    intros x [<-|[<-|[<-|[]]]]; reflexivity.
  - destruct (existsb _ _); simpl; split; auto; tauto.
  - destruct (existsb _ _); simpl; split; auto; tauto.
  - destruct (channel_room _ _); simpl; split; auto; tauto.
  - rewrite Hu. simpl. split; auto; tauto.
  - simpl in He. apply negb_false_iff in He. rewrite He. simpl.
    split; auto; tauto.
Qed.

Lemma run_no_profile (evs : list Event) :
  forall a : App,
    userProfile a = None ->
    forallb (fun e => negb (sets_profile e)) evs = true ->
    userProfile (fst (run a evs)) = None /\
    forall x, In x (snd (run a evs)) -> is_insert x = false.
Proof.
  induction evs as [|e evs IH]; intros a Hu Hno.
  - simpl. split; [exact Hu | tauto].
  - simpl in Hno. apply andb_true_iff in Hno. destruct Hno as [He Hevs].
    apply negb_true_iff in He.
    destruct (step_no_profile a e Hu He) as [Hu1 Hout1].
    destruct (IH _ Hu1 Hevs) as [Hu2 Hout2].
    rewrite run_cons. cbn [fst snd]. split; [exact Hu2|].
    intros x Hx. apply in_app_or in Hx. destruct Hx; auto.
Qed.

(** X9.  A client with no saved profile that has not joined writes nothing:
    whatever it is asked to send, whatever it selects and whatever arrives,
    it inserts no row and makes no generation call, and it still has no
    profile. *)
Theorem no_profile_no_writes (evs : list Event) :
  forallb (fun e => negb (sets_profile e)) evs = true ->
  userProfile (fst (run_app None evs)) = None /\
  count is_insert (snd (run_app None evs)) = 0 /\
  gen_calls (snd (run_app None evs)) = 0.
Proof.
  intros Hno. rewrite run_app_run. cbn [fst snd].
  destruct (run_no_profile evs (fst (mount None)) eq_refl Hno) as [Hu Hout].
  split; [exact Hu|].
  assert (Hins : count is_insert
                   (snd (mount None) ++ snd (run (fst (mount None)) evs)) = 0).
  { apply count_none. intros x Hx.
    apply in_app_or in Hx. destruct Hx as [Hx|Hx]; [|now apply Hout].
    simpl in Hx. destruct Hx as [<-|[<-|[]]]; reflexivity. }
  split; [exact Hins|].
  unfold gen_calls. apply count_none. intros x Hx.
  destruct x as [| | | |t ctx pers img|]; try reflexivity.
  exfalso.
  apply in_app_or in Hx. destruct Hx as [Hx|Hx].
  - simpl in Hx. destruct Hx as [H|[H|[]]]; discriminate.
  - clear Hins Hout Hu. revert Hx Hno.
    generalize (eq_refl : userProfile (fst (mount None)) = None).
    generalize (fst (mount None)) as a.
    induction evs as [|e evs IH]; intros a Hu Hx Hno; [destruct Hx|].
    simpl in Hno. apply andb_true_iff in Hno. destruct Hno as [He Hevs].
    apply negb_true_iff in He.
    rewrite run_cons in Hx. cbn [snd] in Hx.
    apply in_app_or in Hx. destruct Hx as [Hx|Hx].
    + destruct (is_send e) eqn:Es.
      * destruct e as [| | |text image env|]; try discriminate.
        simpl in Hx. rewrite Hu in Hx. destruct Hx.
      * apply (step_effects_of_other_events a e Es) in Hx. discriminate.
    + apply (IH (fst (step a e))); auto.
      now apply (step_no_profile a e Hu He).
Qed.

Lemma no_profile_no_writes_witness :
  count is_insert
    (snd (run_app None
            [Send "hi" None (env_ok (GenReturns "hello!")); Join "";
             FeedInsert 0 msgA; Send "again" None (env_ok GenThrows)])) = 0.
Proof.
  apply (no_profile_no_writes
           [Send "hi" None (env_ok (GenReturns "hello!")); Join "";
            FeedInsert 0 msgA; Send "again" None (env_ok GenThrows)]).
  reflexivity.
Defined.

(** ** How many calls a client makes *)

Lemma handleSendMessage_counts (u : option UserProfile) (r : string)
  (active : option ChatSession) (text : string) (image : option string)
  (env : SendEnv) :
  let out := handleSendMessage u r active text image env in
  agent_writes out <= gen_calls out /\
  gen_calls out <= count is_user_write out /\
  count is_user_write out <= 1.
Proof.
  unfold handleSendMessage, agent_writes, gen_calls, count.
  destruct u as [p|]; simpl; [|lia].
  destruct (insert_error env); simpl; [lia|].
  destruct active as [s|]; simpl; [|lia].
  destruct (generated env); simpl; lia.
Qed.

Lemma step_counts (a : App) (e : Event) :
  let out := snd (step a e) in
  agent_writes out <= gen_calls out /\
  gen_calls out <= count is_user_write out /\
  count is_user_write out <= count is_send [e].
Proof.
  destruct e as [id|room [d|]|h M|text image env|trimmed]; simpl.
  - destruct (String.eqb id (activeSessionId a)); cbv; lia.
  - destruct (existsb _ _); cbv; lia.
  - destruct (existsb _ _); cbv; lia.
  - destruct (channel_room _ _); cbv; lia.
  - apply handleSendMessage_counts.
  - destruct (String.eqb trimmed ""); cbv; lia.
Qed.

Lemma run_counts (evs : list Event) :
  forall a : App,
    agent_writes (snd (run a evs)) <= gen_calls (snd (run a evs)) /\
    gen_calls (snd (run a evs)) <= count is_user_write (snd (run a evs)) /\
    count is_user_write (snd (run a evs)) <= count is_send evs.
Proof.
  induction evs as [|e evs IH]; intros a; [cbv; lia|].
  rewrite run_cons. cbn [snd].
  unfold agent_writes, gen_calls in *. rewrite !count_app.
  change (e :: evs) with ([e] ++ evs). rewrite (count_app is_send).
  pose proof (step_counts a e) as Hs.
  unfold agent_writes, gen_calls in Hs. cbv zeta in Hs.
  specialize (IH (fst (step a e))). lia.
Qed.

(** X10.  Over any run a client writes at most one user row per send, calls
    the generation collaborator at most once per user row it wrote, and
    writes at most one agent row per generation call: there are never more
    replies than user messages. *)
Theorem replies_bounded_by_sends (saved : option UserProfile)
  (evs : list Event) :
  let out := snd (run_app saved evs) in
  agent_writes out <= gen_calls out /\
  gen_calls out <= count is_user_write out /\
  count is_user_write out <= count is_send evs.
Proof.
  intros out. subst out. rewrite run_app_run. cbn [snd].
  unfold agent_writes, gen_calls. rewrite !count_app.
  pose proof (run_counts evs (fst (mount saved))) as H.
  unfold agent_writes, gen_calls in H.
  change (count is_agent_write (snd (mount saved))) with 0.
  change (count is_generate (snd (mount saved))) with 0.
  change (count is_user_write (snd (mount saved))) with 0.
  lia.
Qed.

Lemma handleSendMessage_no_fetch (u : option UserProfile) (r : string)
  (active : option ChatSession) (text : string) (image : option string)
  (env : SendEnv) (room : string) :
  count (is_select room) (handleSendMessage u r active text image env) = 0 /\
  count (is_subscribe_to room)
    (handleSendMessage u r active text image env) = 0.
Proof.
  unfold handleSendMessage, count.
  destruct u as [p|]; simpl; [|auto].
  destruct (insert_error env); simpl; [auto|].
  destruct active as [s|]; simpl; [|auto].
  destruct (generated env); simpl; auto.
Qed.

Lemma step_fetch_subscribe (a : App) (e : Event) (room : string) :
  count (is_select room) (snd (step a e)) =
  count (is_subscribe_to room) (snd (step a e)).
Proof.
  destruct e as [id|r [d|]|h M|text image env|trimmed]; simpl.
  - destruct (String.eqb id (activeSessionId a)); [reflexivity|].
    unfold count. simpl. destruct (String.eqb id room); reflexivity.
  - destruct (existsb _ _); reflexivity.
  - destruct (existsb _ _); reflexivity.
  - destruct (channel_room _ _); reflexivity.
  - destruct (handleSendMessage_no_fetch (userProfile a) (activeSessionId a)
                (activeSession (sessions a) (activeSessionId a))
                text image env room) as [-> ->].
    reflexivity.
  - destruct (String.eqb trimmed ""); reflexivity.
Qed.

Lemma run_fetch_subscribe (evs : list Event) :
  forall (a : App) (room : string),
    count (is_select room) (snd (run a evs)) =
    count (is_subscribe_to room) (snd (run a evs)).
Proof.
  induction evs as [|e evs IH]; intros a room; [reflexivity|].
  rewrite run_cons. cbn [snd]. rewrite !count_app.
  now rewrite step_fetch_subscribe, IH.
Qed.

(** X11.  Activating a room starts one history fetch and one subscription,
    both for that room: over any run, for every room, as many fetches were
    issued as channels were subscribed.  Selecting the room that is already
    active starts neither and changes nothing. *)
Theorem fetch_and_subscribe_go_together (saved : option UserProfile)
  (evs : list Event) :
  (forall room,
      count (is_select room) (snd (run_app saved evs)) =
      count (is_subscribe_to room) (snd (run_app saved evs))) /\
  step (fst (run_app saved evs))
       (Select (activeSessionId (fst (run_app saved evs)))) =
  (fst (run_app saved evs), []).
Proof.
  split.
  - intros room. rewrite run_app_run. cbn [snd]. rewrite !count_app.
    rewrite run_fetch_subscribe. f_equal.
    unfold mount, run_effect, count.
    cbn [snd filter is_select is_subscribe_to activeSessionId].
    destruct (String.eqb _ room); reflexivity.
  - simpl. now rewrite String.eqb_refl.
Qed.

(** ** A room id that is not in the catalog *)

Lemma find_id_absent (r : string) (ss : list ChatSession) :
  ~ In r (map ChatSession.id ss) ->
  js_find (fun s => String.eqb (ChatSession.id s) r) ss = None.
Proof.
  unfold js_find. induction ss as [|x ss IH]; simpl; [reflexivity|].
  intros H. destruct (String.eqb_spec (ChatSession.id x) r) as [E|E].
  - exfalso. apply H. now left.
  - apply IH. intros Hin. apply H. now right.
Qed.

Lemma map_id_when_absent (f : ChatSession -> ChatSession) (r : string)
  (ss : list ChatSession) :
  (forall s, ChatSession.id s <> r -> f s = s) ->
  ~ In r (map ChatSession.id ss) ->
  map f ss = ss.
Proof.
  intros Hf. induction ss as [|x ss IH]; simpl; [reflexivity|].
  intros H. rewrite Hf, IH; auto.
Qed.

(** X12.  When the selected id names no room of the catalog, the chat window
    is given the first session (the fallback of [activeSession]), while the
    fetch and the subscription are made for the unknown id: a history or a
    delivery that arrives for it changes no room.  A send in that state tags
    the user row with the unknown id but takes personality and context from
    the first session. *)
Theorem unknown_room_falls_back (ss : list ChatSession) (id : string) :
  ~ In id (map ChatSession.id ss) ->
  activeSession ss id = nth_error ss 0 /\
  (forall M, on_insert id M ss = ss) /\
  (forall d, load_initial id d ss = ss) /\
  (forall a p first text image env,
      sessions a = ss -> activeSessionId a = id ->
      userProfile a = Some p -> insert_error env = false ->
      nth_error ss 0 = Some first ->
      exists rest,
        snd (step a (Send text image env)) =
        DbInsert (newUserMessage p id text image env) ::
        GenerateResponse text (js_slice (-5) (ChatSession.messages first))
          (ChatSession.personality first) image :: rest).
Proof.
  intros Hid.
  assert (Hact : activeSession ss id = nth_error ss 0).
  { unfold activeSession. now rewrite (find_id_absent id ss Hid). }
  split; [exact Hact|]. split; [|split].
  - intros M. unfold on_insert.
    apply (map_id_when_absent _ id); [|exact Hid].
    intros s. apply on_insert_session_other.
  - intros d. unfold load_initial.
    apply (map_id_when_absent _ id); [|exact Hid].
    intros s. apply load_initial_session_other.
  - intros a p first text image env Hss Ha Hp He Hfirst.
    assert (Hs : activeSession (sessions a) (activeSessionId a) = Some first)
      by (rewrite Hss, Ha, Hact; exact Hfirst).
    rewrite (send_generation a p text image env Hp first He Hs).
    cbn [snd]. rewrite Ha. eexists. reflexivity.
Qed.

Lemma unknown_room_falls_back_witness :
  activeSession INITIAL_SESSIONS "nowhere" = nth_error INITIAL_SESSIONS 0 /\
  on_insert "nowhere" msgA INITIAL_SESSIONS = INITIAL_SESSIONS.
Proof.
  destruct (unknown_room_falls_back INITIAL_SESSIONS "nowhere")
    as [H1 [H2 _]].
  - simpl. intros [H|[H|[]]]; discriminate.
  - split; [exact H1 | apply H2].
Defined.

(** ** Joining, then sending *)

(** X13.  After a join with a non-empty nickname, the next send writes first
    a user row that carries the text and image sent, the nickname, the avatar
    derived from it and the active room; the join leaves rooms, active room
    and channels alone, and a join with an empty nickname changes nothing. *)
Theorem join_sets_the_author (a : App) (nickname : string) :
  nickname <> "" ->
  let avatar := ("https://picsum.photos/seed/" ++ nickname ++ "/200")%string in
  let a1 := fst (step a (Join nickname)) in
  userProfile a1 = Some (UserProfile.mk nickname avatar) /\
  sessions a1 = sessions a /\
  activeSessionId a1 = activeSessionId a /\
  open_channels a1 = open_channels a /\
  step a (Join "") = (a, []) /\
  forall text image env,
    hd_error (snd (step a1 (Send text image env))) =
    Some (DbInsert
            (Message.mk (messageId env) user text (now env) image None
               (Some nickname) (Some avatar) (Some (activeSessionId a)))).
Proof.
  intros Hn avatar a1.
  assert (Ha1 : a1 = setUserProfile (UserProfile.mk nickname avatar) a).
  { subst a1. apply String.eqb_neq in Hn. cbn [step]. now rewrite Hn. }
  rewrite Ha1. repeat split.
Qed.

Lemma join_sets_the_author_witness :
  userProfile (fst (step (fst (mount None)) (Join "ana"))) = Some ana.
Proof.
  apply (join_sets_the_author (fst (mount None)) "ana"). discriminate.
Defined.

(** ** The context handed to the generation call *)



Lemma in_copies_positive (m : Message) (l : list Message) :
  In m l -> copies (Message.id m) l <> 0.
Proof.
  induction l as [|x l IH]; intros Hm; [destruct Hm|].
  unfold copies. simpl. destruct Hm as [->|Hm].
  - rewrite String.eqb_refl. simpl. discriminate.
  - destruct (String.eqb (Message.id x) (Message.id m)); simpl;
      [discriminate|]. now apply IH.
Qed.



(** ** Switching rooms *)

Lemma snapshot_room_messages (a : App) (msgs : list Message) :
  room_messages (activeSessionId a) (sessions a) = Some msgs ->
  snapshot a = msgs.
Proof.
  unfold room_messages, snapshot, activeSession.
  destruct (js_find _ (sessions a)) as [s|]; simpl; [|discriminate].
  now intros [= <-].
Qed.

(** X15.  Switching to another room of the catalog shows at once the list
    that room already holds, and keeps showing it if the fetch started by the
    switch fails; when that fetch succeeds, the snapshot is exactly the
    fetched rows. *)
Theorem switch_shows_stored_then_fetched (a : App) (id : string)
  (msgs : list Message) :
  id <> activeSessionId a ->
  room_messages id (sessions a) = Some msgs ->
  let switched := fst (step a (Select id)) in
  snapshot switched = msgs /\
  snapshot (fst (step switched (HistoryArrives id None))) = msgs /\
  forall data,
    snapshot (fst (step switched (HistoryArrives id (Some data)))) = data.
Proof.
  intros Hne Hr switched.
  assert (Hsw : switched =
                mkApp (sessions a) id (userProfile a) (next_channel a)
                  (filter (fun c => negb (Nat.eqb (fst c) (channel a)))
                     (open_channels a) ++ [(next_channel a, id)])
                  (S (next_channel a)) (in_flight a ++ [id])).
  { subst switched. now rewrite (select_other_room a id Hne). }
  assert (Hfl : existsb (String.eqb id) (in_flight switched) = true).
  { rewrite Hsw. cbn [in_flight]. rewrite existsb_app. simpl.
    rewrite String.eqb_refl. apply orb_true_iff. right. reflexivity. }
  split; [|split].
  - apply snapshot_room_messages. now rewrite Hsw.
  - apply snapshot_room_messages. cbn [step]. rewrite Hfl.
    rewrite Hsw. exact Hr.
  - intros data. apply snapshot_room_messages. cbn [step]. rewrite Hfl.
    rewrite Hsw. cbn [fst setSessions sessions activeSessionId].
    unfold room_messages, load_initial in *.
    rewrite find_map_same_id by apply load_initial_session_id.
    destruct (js_find _ (sessions a)) as [s|] eqn:E; [|discriminate].
    simpl. apply find_id_has_id in E.
    now rewrite (load_initial_session_same id data s E).
Qed.

Lemma switch_shows_stored_then_fetched_witness :
  snapshot (fst (step joined_app (Select "creative-space"))) = [] /\
  snapshot
    (fst (step (fst (step joined_app (Select "creative-space")))
            (HistoryArrives "creative-space" (Some [msgStray])))) =
  [msgStray].
Proof.
  destruct (switch_shows_stored_then_fetched joined_app "creative-space" [])
    as [H1 [_ H2]].
  - discriminate.
  - reflexivity.
  - split; [exact H1 | apply H2].
Defined.

(** ** From a send to the snapshot *)

Lemma deliver_on_active_channel (a : App) (h : nat) (M : Message)
  (s : ChatSession) :
  js_find (fun s => String.eqb (ChatSession.id s) (activeSessionId a))
    (sessions a) = Some s ->
  channel_room h (open_channels a) = Some (activeSessionId a) ->
  js_find
    (fun s => String.eqb (ChatSession.id s)
                (activeSessionId (fst (step a (FeedInsert h M)))))
    (sessions (fst (step a (FeedInsert h M)))) =
    Some (on_insert_session (activeSessionId a) M s) /\
  channel_room h (open_channels (fst (step a (FeedInsert h M)))) =
    Some (activeSessionId (fst (step a (FeedInsert h M)))) /\
  activeSessionId (fst (step a (FeedInsert h M))) = activeSessionId a.
Proof.
  intros Hs Hh. cbn [step]. rewrite Hh.
  cbn [fst setSessions sessions activeSessionId open_channels].
  split; [|split; [exact Hh | reflexivity]].
  unfold on_insert.
  rewrite find_map_same_id by apply on_insert_session_id.
  now rewrite Hs.
Qed.

Lemma run_echo (h : nat) (rows : list Message) :
  forall (a : App) (s : ChatSession),
    js_find (fun s => String.eqb (ChatSession.id s) (activeSessionId a))
      (sessions a) = Some s ->
    channel_room h (open_channels a) = Some (activeSessionId a) ->
    snapshot (fst (run a (echo h rows))) =
    ChatSession.messages
      (fold_left (fun s M => on_insert_session (activeSessionId a) M s)
         rows s).
Proof.
  induction rows as [|M rows IH]; intros a s Hs Hh.
  - simpl. now apply snapshot_found.
  - unfold echo. cbn [map fold_left]. rewrite run_fst_cons.
    destruct (deliver_on_active_channel a h M s Hs Hh) as [Hs' [Hh' Ha']].
    fold (echo h rows). rewrite (IH _ _ Hs' Hh'). now rewrite Ha'.
Qed.

(** X16.  End to end: a send whose write succeeds and whose generation
    returns a text writes two rows, the user's and the agent's, in that
    order.  When their ids are new to the active room and differ from each
    other, and the feed delivers both on the active room's channel, each of
    them twice, the snapshot is the former list followed by the user's row
    and then the agent's, once each. *)
Theorem sent_rows_appear_once (a : App) (p : UserProfile) (s : ChatSession)
  (h : nat) (text : string) (image : option string) (env : SendEnv)
  (responseText : string) :
  userProfile a = Some p ->
  js_find (fun s => String.eqb (ChatSession.id s) (activeSessionId a))
    (sessions a) = Some s ->
  channel_room h (open_channels a) = Some (activeSessionId a) ->
  insert_error env = false ->
  generated env = GenReturns responseText ->
  copies (messageId env) (ChatSession.messages s) = 0 ->
  copies (botId env) (ChatSession.messages s) = 0 ->
  messageId env <> botId env ->
  let rows := written_rows (snd (step a (Send text image env))) in
  rows = [newUserMessage p (activeSessionId a) text image env;
          botMessage (activeSessionId a) responseText env] /\
  snapshot
    (fst (run a (Send text image env :: echo h rows ++ echo h rows))) =
  ChatSession.messages s ++
  [newUserMessage p (activeSessionId a) text image env;
   botMessage (activeSessionId a) responseText env].
Proof.
  intros Hp Hs Hh He Hg Hu Hb Hne rows.
  set (R := activeSessionId a) in *.
  set (u := newUserMessage p R text image env).
  set (b := botMessage R responseText env).
  assert (Hact : activeSession (sessions a) (activeSessionId a) = Some s).
  { unfold activeSession. fold R. now rewrite Hs. }
  assert (Hrows : rows = [u; b]).
  { subst rows. rewrite (send_generation a p text image env Hp s He Hact).
    cbn [snd]. rewrite Hg. reflexivity. }
  split; [exact Hrows|].
  rewrite run_fst_cons, send_keeps_state, Hrows.
  unfold echo. rewrite <- map_app. fold (echo h ([u; b] ++ [u; b])).
  rewrite (run_echo h _ a s Hs Hh). fold R. cbn [app fold_left].
  pose proof (find_id_has_id _ _ _ Hs) as Hid. fold R in Hid.
  assert (H1 : on_insert_session R u s =
               ChatSession.with_messages s (ChatSession.messages s ++ [u]))
    by (apply on_insert_session_fresh; [exact Hid | exact Hu]).
  rewrite H1.
  assert (H2 : on_insert_session R b
                 (ChatSession.with_messages s (ChatSession.messages s ++ [u]))
               = ChatSession.with_messages s
                   (ChatSession.messages s ++ [u; b])).
  { rewrite on_insert_session_fresh; [|exact Hid|].
    - cbn [ChatSession.with_messages ChatSession.messages ChatSession.id
           ChatSession.name ChatSession.avatar ChatSession.lastMessage
           ChatSession.personality].
      now rewrite <- app_assoc.
    - cbn [ChatSession.with_messages ChatSession.messages].
      rewrite copies_app. change (Message.id b) with (botId env).
      rewrite Hb. unfold copies. cbn [filter u newUserMessage Message.id].
      apply String.eqb_neq in Hne. now rewrite Hne. }
  rewrite H2.
  assert (Hdup : forall M,
             copies (Message.id M) (ChatSession.messages s ++ [u; b]) <> 0 ->
             on_insert_session R M
               (ChatSession.with_messages s
                  (ChatSession.messages s ++ [u; b])) =
             ChatSession.with_messages s (ChatSession.messages s ++ [u; b])).
  { intros M HM. now apply on_insert_session_duplicate. }
  rewrite (Hdup u), (Hdup b); [reflexivity| |].
  - apply in_copies_positive, in_or_app. right. right. now left.
  - apply in_copies_positive, in_or_app. right. now left.
Qed.

Lemma sent_rows_appear_once_witness :
  let env := env_ok (GenReturns "hello!") in
  snapshot
    (fst (run joined_app
            (Send "hi" None env ::
             echo 0 (written_rows (snd (step joined_app (Send "hi" None env))))
             ++
             echo 0 (written_rows (snd (step joined_app (Send "hi" None env)))))))
  = [msgA; msgB] ++
    [newUserMessage ana "public-room-1" "hi" None env;
     botMessage "public-room-1" "hello!" env].
Proof.
  apply (sent_rows_appear_once joined_app ana lounge 0 "hi" None
           (env_ok (GenReturns "hello!")) "hello!");
    try reflexivity.
  discriminate.
Defined.
